(** * CYD-PhotoFrame: the slideshow and playback coordinator of 1-Slideshow.cpp

    A shallow embedding of the sketch's globals and of the functions that
    coordinate the slideshow, the SPI mutex, WAV playback and the HTTP
    handlers, followed by the properties of the design description that
    concern them.

    Conventions.
    - Fixed-width C integers are [Z] values; every implicit conversion of the
      source is written out with [to_int16], [to_uint16], [to_uint32].
    - The globals of the sketch are the fields of [State]; a function of the
      sketch is a function [State -> result State] (or a pure function when
      it cannot block or fail).
    - What the hardware and the libraries answer (directory listing, result
      of [jpeg.open], of [SD.begin], of [wav->begin] ...) is read from an
      [Env] record, one field per call site.
    - [Serial] output, [delay] and the pixels pushed to the TFT are left out;
      the calls that matter for the properties are recorded in [trace]. *)

From stdpp Require Import base gmap strings list pretty.
From Stdlib Require Import ZArith Ascii String Lia.

Open Scope Z_scope.

(** ** Machine integers *)

Module CInt.

Definition to_uint16 (z : Z) : Z := z mod 65536.
Definition to_int16 (z : Z) : Z := (z + 32768) mod 65536 - 32768.
Definition to_uint32 (z : Z) : Z := z mod 4294967296.

Definition LONG_MAX : Z := 2147483647.
Definition LONG_MIN : Z := -2147483648.

(** [a % b] of C truncates towards zero: the sign is that of [a]. *)
Definition c_rem (a b : Z) : Z := Z.rem a b.

End CInt.
Import CInt.

(** ** Outcomes of a call

    [Blocked]: the call waits in [xSemaphoreTake(xSpiMutex, portMAX_DELAY)]
    for a mutex that nothing in the modelled run gives back.
    [Undefined]: the call evaluates [name + strlen(name) - 3] on a name of
    fewer than three characters, a pointer before the start of the buffer. *)

Inductive result (A : Type) : Type :=
| Ok (a : A)
| Blocked
| Undefined.
Arguments Ok {A} a.
Arguments Blocked {A}.
Arguments Undefined {A}.

#[global] Instance result_ret : MRet result := fun A a => Ok a.
#[global] Instance result_bind : MBind result := fun A B f m =>
  match m with
  | Ok a => f a
  | Blocked => Blocked
  | Undefined => Undefined
  end.

(** ** C strings *)

(** [tolower] of the C locale. *)
Definition tolower (c : ascii) : ascii :=
  let n := nat_of_ascii c in
  if ((65 <=? n) && (n <=? 90))%nat then ascii_of_nat (n + 32) else c.

(** [strcasecmp(a, b) == 0]. *)
Fixpoint strcasecmp_eq (a b : string) : bool :=
  match a, b with
  | EmptyString, EmptyString => true
  | String x a', String y b' => Ascii.eqb (tolower x) (tolower y) && strcasecmp_eq a' b'
  | _, _ => false
  end.

(** [strcasecmp(name + strlen(name) - 3, "JPG") == 0], the test of
    [loadImage], [handleFileUpload] and [setup]. *)
Definition lastThreeAreJpg (name : string) : bool :=
  strcasecmp_eq (substring (String.length name - 3) 3 name) "JPG".

Definition hasJpgSuffix (name : string) : result bool :=
  if (String.length name <? 3)%nat then Undefined
  else Ok (lastThreeAreJpg name).

(** The reading of the design description: the name ends in ".jpg", in any
    letter case. *)
Definition endsWithDotJpg (name : string) : bool :=
  let n := String.length name in
  (4 <=? n)%nat && strcasecmp_eq (substring (n - 4) 4 name) ".jpg".

(** [String::toInt] of the Arduino core is [atol] on the buffer: leading
    white space, an optional sign, then decimal digits up to the first other
    character; no digits give 0; newlib's [strtol] saturates at the bounds of
    [long] (32 bits on the ESP32). *)
Definition isspace (c : ascii) : bool :=
  let n := nat_of_ascii c in
  ((n =? 32) || ((9 <=? n) && (n <=? 13)))%nat.

Definition isdigit (c : ascii) : bool :=
  let n := nat_of_ascii c in
  ((48 <=? n) && (n <=? 57))%nat.

Fixpoint skip_spaces (s : string) : string :=
  match s with
  | String c r => if isspace c then skip_spaces r else s
  | EmptyString => s
  end.

Fixpoint digits_value (s : string) (acc : Z) : Z :=
  match s with
  | String c r =>
      if isdigit c then digits_value r (acc * 10 + (Z.of_nat (nat_of_ascii c) - 48))
      else acc
  | EmptyString => acc
  end.

Definition saturate_long (z : Z) : Z := Z.max LONG_MIN (Z.min LONG_MAX z).

Definition toInt (s : string) : Z :=
  match skip_spaces s with
  | String "-" r => saturate_long (- digits_value r 0)
  | String "+" r => saturate_long (digits_value r 0)
  | r => saturate_long (digits_value r 0)
  end.

(** ** Events *)

Inductive Event : Type :=
| EvTake                                   (* xSemaphoreTake(xSpiMutex, portMAX_DELAY) returned *)
| EvGive                                   (* xSemaphoreGive(xSpiMutex) *)
| EvJpegOpen (name : string) (ok : bool)   (* jpeg.open(name, ...) *)
| EvFillScreen                             (* tft.fillScreen(TFT_BLACK) *)
| EvJpegDecode (name : string)             (* jpeg.decode(...) *)
| EvJpegClose                              (* jpeg.close() *)
| EvWsTextAll (msg : string)               (* ws.textAll(msg) *)
| EvSdFatEnd                               (* sd.end() *)
| EvSdFatBegin (ok : bool)                 (* sd.begin(sdSpiConfig) *)
| EvSDBegin (ok : bool)                    (* SD.begin(SD_CS, sdSpi) *)
| EvSDEnd                                  (* SD.end() *)
| EvWavBegin (ok : bool)                   (* wav->begin(file, out) *)
| EvWavLoop (ok : bool)                    (* wav->loop() *)
| EvWavStop                                (* wav->stop() *)
| EvFileOpen (name : string) (ok : bool)   (* file->open(name, O_RDONLY) *)
| EvFileClose                              (* file->close(); delete file *)
| EvSend (status : Z).                     (* request->send(status, ...) *)

#[global] Instance Event_eq_dec : EqDecision Event.
Proof. solve_decision. Defined.

(** ** Globals of the sketch *)

Record State : Type := mkState {
  currentIndex : Z;            (* int16_t currentIndex *)
  fileCount : Z;               (* uint16_t fileCount *)
  timer : Z;                   (* uint32_t timer *)
  X : Z;                       (* int X *)
  buttonPressed : bool;        (* volatile bool buttonPressed *)
  sdMounted : bool;            (* bool sdMounted *)
  slideshowActive : bool;      (* bool slideshowActive *)
  currentImageName : string;   (* String currentImageName *)
  xSpiMutex : bool;            (* true while the mutex is taken *)
  sdFatUp : bool;              (* the SdFat volume [sd] is begun *)
  SDUp : bool;                 (* the Arduino [SD] object is begun *)
  trace : list Event           (* calls made so far, most recent first *)
}.

Definition set_currentIndex (v : Z) (s : State) : State :=
  mkState v (fileCount s) (timer s) (X s) (buttonPressed s) (sdMounted s)
          (slideshowActive s) (currentImageName s) (xSpiMutex s) (sdFatUp s) (SDUp s) (trace s).
Definition set_fileCount (v : Z) (s : State) : State :=
  mkState (currentIndex s) v (timer s) (X s) (buttonPressed s) (sdMounted s)
          (slideshowActive s) (currentImageName s) (xSpiMutex s) (sdFatUp s) (SDUp s) (trace s).
Definition set_timer (v : Z) (s : State) : State :=
  mkState (currentIndex s) (fileCount s) v (X s) (buttonPressed s) (sdMounted s)
          (slideshowActive s) (currentImageName s) (xSpiMutex s) (sdFatUp s) (SDUp s) (trace s).
Definition set_X (v : Z) (s : State) : State :=
  mkState (currentIndex s) (fileCount s) (timer s) v (buttonPressed s) (sdMounted s)
          (slideshowActive s) (currentImageName s) (xSpiMutex s) (sdFatUp s) (SDUp s) (trace s).
Definition set_buttonPressed (v : bool) (s : State) : State :=
  mkState (currentIndex s) (fileCount s) (timer s) (X s) v (sdMounted s)
          (slideshowActive s) (currentImageName s) (xSpiMutex s) (sdFatUp s) (SDUp s) (trace s).
Definition set_sdMounted (v : bool) (s : State) : State :=
  mkState (currentIndex s) (fileCount s) (timer s) (X s) (buttonPressed s) v
          (slideshowActive s) (currentImageName s) (xSpiMutex s) (sdFatUp s) (SDUp s) (trace s).
Definition set_slideshowActive (v : bool) (s : State) : State :=
  mkState (currentIndex s) (fileCount s) (timer s) (X s) (buttonPressed s) (sdMounted s)
          v (currentImageName s) (xSpiMutex s) (sdFatUp s) (SDUp s) (trace s).
Definition set_currentImageName (v : string) (s : State) : State :=
  mkState (currentIndex s) (fileCount s) (timer s) (X s) (buttonPressed s) (sdMounted s)
          (slideshowActive s) v (xSpiMutex s) (sdFatUp s) (SDUp s) (trace s).
Definition set_xSpiMutex (v : bool) (s : State) : State :=
  mkState (currentIndex s) (fileCount s) (timer s) (X s) (buttonPressed s) (sdMounted s)
          (slideshowActive s) (currentImageName s) v (sdFatUp s) (SDUp s) (trace s).
Definition set_sdFatUp (v : bool) (s : State) : State :=
  mkState (currentIndex s) (fileCount s) (timer s) (X s) (buttonPressed s) (sdMounted s)
          (slideshowActive s) (currentImageName s) (xSpiMutex s) v (SDUp s) (trace s).
Definition set_SDUp (v : bool) (s : State) : State :=
  mkState (currentIndex s) (fileCount s) (timer s) (X s) (buttonPressed s) (sdMounted s)
          (slideshowActive s) (currentImageName s) (xSpiMutex s) (sdFatUp s) v (trace s).
Definition set_trace (v : list Event) (s : State) : State :=
  mkState (currentIndex s) (fileCount s) (timer s) (X s) (buttonPressed s) (sdMounted s)
          (slideshowActive s) (currentImageName s) (xSpiMutex s) (sdFatUp s) (SDUp s) v.
Definition emit (e : Event) (s : State) : State :=
  mkState (currentIndex s) (fileCount s) (timer s) (X s) (buttonPressed s) (sdMounted s)
          (slideshowActive s) (currentImageName s) (xSpiMutex s) (sdFatUp s) (SDUp s)
          (e :: trace s).

(** The globals as initialised by their declarations. *)
Definition initial : State :=
  mkState 0 0 0 10 false false true "" false false false [].

(** Number of times an event occurs in the trace. *)
Definition occurrences (e : Event) (s : State) : nat :=
  List.length (List.filter (fun e' => bool_decide (e' = e)) (trace s)).

(** ** The environment

    One field per question the sketch asks the card, the decoders or the
    audio library. *)

(** A directory entry as [openNext] opens it: the name [getName] leaves in
    the 100-byte buffer, and what [isDirectory] answers. *)
Record Entry : Type := mkEntry {
  getName : string;
  isDirectory : bool
}.

Record Env : Type := mkEnv {
  dir : list Entry;              (* entries root.openNext yields after root.rewind() *)
  jpeg_open : string -> bool;    (* jpeg.open(name, myOpen, ...) *)
  SD_begin : bool;               (* SD.begin(SD_CS, sdSpi) *)
  wav_begin : bool;              (* wav->begin(file, out) *)
  wav_chunks : nat;              (* calls of wav->loop() that return true before the one that returns false *)
  sd_begin : bool;               (* sd.begin(sdSpiConfig) *)
  music_exists : bool;           (* sd.exists("/music.wav") *)
  file_open : string -> bool     (* file->open(name, O_RDONLY) in the /current_image handler *)
}.

(** ** The SPI mutex *)

Definition xSemaphoreTake (s : State) : result State :=
  if xSpiMutex s then Blocked else Ok (emit EvTake (set_xSpiMutex true s)).

Definition xSemaphoreGive (s : State) : State :=
  emit EvGive (set_xSpiMutex false s).

(** ** Slideshow *)

(** The button interrupt. *)
Definition buttonInt (s : State) : State := set_buttonPressed true s.

Definition stopSlideshow (s : State) : result State :=
  let s := set_slideshowActive false s in
  s ← xSemaphoreTake s;
  let s := emit EvJpegClose s in
  mret (xSemaphoreGive s).

Definition decodeJpeg (env : Env) (name : string) (s : State) : result State :=
  if negb (slideshowActive s) then mret s
  else
    s ← xSemaphoreTake s;
    if negb (jpeg_open env name) then
      mret (xSemaphoreGive (emit (EvJpegOpen name false) s))
    else
      let s := emit (EvJpegOpen name true) s in
      let s := emit EvFillScreen s in
      let s := emit (EvJpegDecode name) s in
      let s := emit EvJpegClose s in
      mret (xSemaphoreGive s).

(** What [loadImage] does with the entry whose ordinal is [targetIndex]. *)
Definition showEntry (env : Env) (name : string) (s : State) : result State :=
  let s := set_currentImageName name s in
  s ← decodeJpeg env name s;
  mret (emit (EvWsTextAll "update") s).

(** The [while (entry.openNext(&root))] loop of [loadImage]; [index] is the
    local [uint16_t index]. *)
Fixpoint loadImage_scan (env : Env) (entries : list Entry) (index targetIndex : Z)
    (s : State) : result State :=
  match entries with
  | [] => mret s
  | entry :: rest =>
      if negb (isDirectory entry) then
        let name := getName entry in
        m ← hasJpgSuffix name;
        if (m : bool) then
          if index =? targetIndex then showEntry env name s
          else loadImage_scan env rest (to_uint16 (index + 1)) targetIndex s
        else loadImage_scan env rest index targetIndex s
      else loadImage_scan env rest index targetIndex s
  end.

(** [targetIndex] is the [uint16_t] parameter: callers convert. *)
Definition loadImage (env : Env) (targetIndex : Z) (s : State) : result State :=
  if negb (slideshowActive s) then mret s
  else
    let targetIndex := if targetIndex >=? fileCount s then 0 else targetIndex in
    loadImage_scan env (dir env) 0 targetIndex s.

Definition restartSlideshow (env : Env) (s : State) : result State :=
  let s := set_slideshowActive true s in
  loadImage env (to_uint16 (currentIndex s)) s.

(** The body of [loop]. [now] is what [millis()] returns in the test and
    [now'] what it returns in [timer = millis()]; [X * 1000] is an [int]
    (taken modulo 2^32, as the generated code does when the product
    overflows) converted to [uint32_t] for the comparison.
    [ws.cleanupClients()] touches none of the globals. *)
Definition loop (env : Env) (now now' : Z) (s : State) : result State :=
  if fileCount s >? 0 then
    if (to_uint32 (now - timer s) >? to_uint32 (X s * 1000)) || buttonPressed s then
      let s := set_currentIndex (to_int16 (c_rem (currentIndex s + 1) (fileCount s))) s in
      s ← loadImage env (to_uint16 (currentIndex s)) s;
      let s := set_timer now' s in
      mret (set_buttonPressed false s)
    else mret s
  else mret s.

(** ** Catalog rebuild

    The counting loop of [handleFileUpload] (and of [setup]); the argument
    [fileCount] is the running value of the global. *)
Fixpoint countImages (entries : list Entry) (fileCount : Z) : result Z :=
  match entries with
  | [] => mret fileCount
  | fileEntry :: rest =>
      m ← hasJpgSuffix (getName fileEntry);
      countImages rest (if (m : bool) then to_uint16 (fileCount + 1) else fileCount)
  end.

(** ** WAV playback *)

Definition checkAndMountSDCard (env : Env) (s : State) : bool * State :=
  if negb (sdMounted s) then
    if negb (sd_begin env) then
      (false, set_sdMounted false (emit (EvSdFatBegin false) s))
    else
      (true, set_sdMounted true (set_sdFatUp true (emit (EvSdFatBegin true) s)))
  else (true, s).

(** [while (wav->isRunning()) { if (!wav->loop()) wav->stop(); delay(1); }]:
    [n] further calls of [loop()] return true, the next one returns false. *)
Fixpoint wav_play (n : nat) (s : State) : State :=
  match n with
  | O => emit EvWavStop (emit (EvWavLoop false) s)
  | S k => wav_play k (emit (EvWavLoop true) s)
  end.

Definition playWAV (env : Env) (s : State) : result State :=
  s ← xSemaphoreTake s;
  let s := set_sdFatUp false (emit EvSdFatEnd s) in
  let s := set_sdMounted false s in
  if negb (SD_begin env) then
    mret (xSemaphoreGive (emit (EvSDBegin false) s))
  else
    let s := set_SDUp true (emit (EvSDBegin true) s) in
    let s := xSemaphoreGive s in
    if wav_begin env then
      let s := emit (EvWavBegin true) s in
      let s := wav_play (wav_chunks env) s in
      let s := emit EvWavStop s in
      s ← xSemaphoreTake s;
      let s := set_SDUp false (emit EvSDEnd s) in
      let '(mounted, s) := checkAndMountSDCard env s in
      if negb mounted then mret (xSemaphoreGive s)
      else mret (xSemaphoreGive s)
    else
      let s := emit (EvWavBegin false) s in
      mret (emit EvWavStop s).

Definition playWAVTask (env : Env) (s : State) : result State :=
  s ← playWAV env s;
  restartSlideshow env s.

(** [handleFileUpload]; the task created for [playWAVTask] is run to its end
    after the handler. *)
Definition handleFileUpload (env : Env) (s : State) : result State :=
  s ← stopSlideshow s;
  let s := emit (EvSend 200) s in
  n ← countImages (dir env) 0;
  let s := set_fileCount n s in
  let s := set_currentIndex 0 s in
  if music_exists env then playWAVTask env s
  else restartSlideshow env s.

(** ** HTTP handlers *)

(** The pages the handlers build; their markup is left out. *)
Inductive Page : Type :=
| SpeedUpdatedPage                   (* "Speed Updated" *)
| DeleteResultPage (success : bool)  (* "Selected images deleted successfully!" / "Failed to delete some images!" *)
| PlainText (text : string)
| ChunkedJpeg.                       (* beginChunkedResponse("image/jpeg", ...) *)

Record Response : Type := mkResponse {
  status : Z;
  page : Page
}.

(** A request parameter, as [AsyncWebParameter] exposes it. *)
Record Param : Type := mkParam {
  paramName : string;
  value : string;
  isPost : bool;
  isFile : bool
}.

(** [request->getParam(name, post)] and [request->hasParam(name, post)] of
    the web server library: the first parameter with that name and kind
    ([file] defaults to false). *)
Definition getParam (name : string) (post : bool) (params : list Param) : option Param :=
  List.find
    (fun p => String.eqb (paramName p) name && Bool.eqb (isPost p) post
              && Bool.eqb (isFile p) false)
    params.

Definition hasParam (name : string) (post : bool) (params : list Param) : bool :=
  match getParam name post params with
  | Some _ => true
  | None => false
  end.

(** [/set-speed]. *)
Definition set_speed_handler (params : list Param) (s : State) : State * Response :=
  let s :=
    if hasParam "speed" true params then
      match getParam "speed" true params with
      | Some p => let speedValue := value p in set_X (toInt speedValue) s
      | None => s
      end
    else s in
  (s, mkResponse 200 SpeedUpdatedPage).

(** [/delete_files]. The card is the set of paths for which [sd.exists]
    answers true; [sd_remove path] tells whether [sd.remove(path)] succeeds
    on an existing path (it fails on a directory or a read-only file), and a
    successful call removes the path. *)

Section DeleteFiles.

Variable sd_remove : string -> bool.

(** One iteration of the [for] loop over the request's parameters. *)
Definition delete_step (card : gset string) (deletionSuccess : bool) (p : Param)
    : gset string * bool :=
  if isPost p then
    let fileToDelete := ("/" ++ value p)%string in
    if bool_decide (fileToDelete ∈ card) then
      if sd_remove fileToDelete then (card ∖ {[ fileToDelete ]}, deletionSuccess)
      else (card, false)
    else (card, false)
  else (card, deletionSuccess).

Fixpoint delete_loop (params : list Param) (card : gset string) (deletionSuccess : bool)
    : gset string * bool :=
  match params with
  | [] => (card, deletionSuccess)
  | p :: rest =>
      let '(card, deletionSuccess) := delete_step card deletionSuccess p in
      delete_loop rest card deletionSuccess
  end.

Definition delete_files_handler (params : list Param) (card : gset string)
    : gset string * Response :=
  let '(card, deletionSuccess) := delete_loop params card true in
  (card, mkResponse 200 (DeleteResultPage deletionSuccess)).

(** What happens to each POST parameter, in the order of the request: [true]
    when its file existed and was removed. Used to state the properties of
    the handler; the handler itself keeps only the flag. *)
Fixpoint item_outcomes (params : list Param) (card : gset string) : list bool :=
  match params with
  | [] => []
  | p :: rest =>
      if isPost p then
        let fileToDelete := ("/" ++ value p)%string in
        let ok := bool_decide (fileToDelete ∈ card) && sd_remove fileToDelete in
        ok :: item_outcomes rest (fst (delete_step card true p))
      else item_outcomes rest card
  end.

End DeleteFiles.

(** [/current_image]. The handler answers 404 or starts a chunked response;
    the server then calls the chunk callback until it returns 0, or drops it
    when the client disconnects. No [onDisconnect] handler is registered. *)
Definition current_image_handler (env : Env) (s : State) : result (State * Response * bool) :=
  if String.eqb (currentImageName s) "" then
    mret (emit (EvSend 404) s, mkResponse 404 (PlainText "No image"), false)
  else
    s ← xSemaphoreTake s;
    if negb (file_open env (currentImageName s)) then
      let s := emit (EvFileOpen (currentImageName s) false) s in
      let s := xSemaphoreGive s in
      mret (emit (EvSend 404) s, mkResponse 404 (PlainText "Image not found"), false)
    else
      let s := emit (EvFileOpen (currentImageName s) true) s in
      mret (emit (EvSend 200) s, mkResponse 200 ChunkedJpeg, true).

(** The chunk callback; [read] is what [file->read(buffer, maxLen)] returns,
    stored in a [size_t]. *)
Definition current_image_chunk (read : Z) (s : State) : State * Z :=
  let bytesRead := to_uint32 read in
  if bytesRead =? 0 then (xSemaphoreGive (emit EvFileClose s), bytesRead)
  else (s, bytesRead).

(** The server's calls of the callback for the successive results [reads] of
    [file->read]: it stops calling after a chunk of length 0; when [reads]
    runs out before that, the client has disconnected. *)
Fixpoint current_image_stream (reads : list Z) (s : State) : State :=
  match reads with
  | [] => s
  | read :: rest =>
      let '(s, bytesRead) := current_image_chunk read s in
      if bytesRead =? 0 then s else current_image_stream rest s
  end.

(** A whole [/current_image] request. *)
Definition serveCurrentFrame (env : Env) (reads : list Z) (s : State) : result State :=
  r ← current_image_handler env s;
  let '(s, _, streaming) := r in
  if (streaming : bool) then mret (current_image_stream reads s) else mret s.

(** ** Notions used to state the properties *)

(** Names of the entries [loadImage] can show, in directory order: entries
    that are not directories and pass the suffix test. *)
Definition eligible (entry : Entry) : bool :=
  negb (isDirectory entry) && lastThreeAreJpg (getName entry).

Definition eligible_names (entries : list Entry) : list string :=
  List.map getName (List.filter eligible entries).

(** Names of the entries the design description calls eligible: files, not
    directories, whose name ends in ".jpg" in any letter case. *)
Definition described_names (entries : list Entry) : list string :=
  List.map getName
    (List.filter (fun entry => negb (isDirectory entry) && endsWithDotJpg (getName entry)) entries).

(** Every name is long enough for the suffix test to stay inside the buffer. *)
Definition names_ok (entries : list Entry) : Prop :=
  Forall (fun entry => (3 <= String.length (getName entry))%nat) entries.

(** No directory passes the suffix test. *)
Definition no_jpg_directory (entries : list Entry) : Prop :=
  Forall (fun entry => isDirectory entry = true -> lastThreeAreJpg (getName entry) = false) entries.

(** What [decodeJpeg] adds to the trace, most recent first. *)
Definition decode_trace (env : Env) (name : string) : list Event :=
  if jpeg_open env name then
    [EvGive; EvJpegClose; EvJpegDecode name; EvFillScreen; EvJpegOpen name true; EvTake]
  else [EvGive; EvJpegOpen name false; EvTake].

(** Entries the counting loop counts: any entry that passes the suffix test. *)
Definition counted (entry : Entry) : bool := lastThreeAreJpg (getName entry).

(** The ordinal [loadImage] looks for when asked for [targetIndex]. *)
Definition resolved_index (targetIndex : Z) (s : State) : Z :=
  if targetIndex >=? fileCount s then 0 else targetIndex.

(** The state after [loadImage], in closed form. *)
Definition shown (env : Env) (name : string) (s : State) : State :=
  set_trace (EvWsTextAll "update" :: decode_trace env name ++ trace s)
            (set_currentImageName name s).

Definition after_loadImage (env : Env) (targetIndex : Z) (s : State) : State :=
  if slideshowActive s then
    match eligible_names (dir env) !! Z.to_nat (resolved_index targetIndex s) with
    | Some name => shown env name s
    | None => s
    end
  else s.

(** The condition of the inner [if] of [loop]. *)
Definition due (now : Z) (s : State) : bool :=
  (to_uint32 (now - timer s) >? to_uint32 (X s * 1000)) || buttonPressed s.

(** Paths named by the POST parameters of a request, in order. *)
Definition post_paths (params : list Param) : list string :=
  List.map (fun p => ("/" ++ value p)%string) (List.filter isPost params).

(** [n] ticks of [loop] in which the button is pressed or the interval has
    elapsed; [clock k] is the time of the [k]-th tick. *)
Fixpoint advances (env : Env) (clock : nat -> Z) (n : nat) (s : State) : result State :=
  match n with
  | O => mret s
  | S k =>
      s ← advances env clock k s;
      loop env (clock k) (clock k) (buttonInt s)
  end.

(** ** Sample cards and states *)

Definition file (name : string) : Entry := mkEntry name false.
Definition folder (name : string) : Entry := mkEntry name true.

Definition mkCard (entries : list Entry) (decodes : bool) : Env :=
  mkEnv entries (fun _ => decodes) true true 2 true true (fun _ => true).

(** Three pictures, all decodable. *)
Definition three_pictures : Env :=
  mkCard [file "a.jpg"; file "b.JPG"; file "c.jpg"] true.

(** The same card when no picture can be opened by the decoder. *)
Definition three_corrupt : Env :=
  mkCard [file "a.jpg"; file "b.JPG"; file "c.jpg"] false.

(** The state after [setup] has mounted the card and counted the three
    pictures. *)
Definition three_counted : State :=
  set_sdFatUp true (set_sdMounted true (set_fileCount 3 initial)).

(** The same, once "a.jpg" is on the screen. *)
Definition showing_first : State := set_currentImageName "a.jpg" three_counted.

(** A card whose only file is named "ABCJPG". *)
Definition dotless : Env := mkCard [file "ABCJPG"] true.

(** A card on which [wav->begin] fails. *)
Definition bad_wav : Env :=
  mkEnv [file "a.jpg"; file "b.JPG"; file "c.jpg"] (fun _ => true)
        true false 0 true true (fun _ => true).

(** A card with 40000 pictures "IMG0.JPG", "IMG1.JPG", ..., and the
    slideshow at picture 32767. *)
Definition picture_name (k : nat) : string := ("IMG" ++ pretty k ++ ".JPG")%string.

Definition many_entries : list Entry :=
  List.map (fun k => file (picture_name k)) (List.seq 0 (Z.to_nat 40000)).

Definition many_pictures : Env := mkCard many_entries true.

Definition at_32767 : State :=
  set_currentImageName (picture_name (Z.to_nat 32767))
    (set_currentIndex 32767
       (set_sdFatUp true (set_sdMounted true (set_fileCount 40000 initial)))).

(** A delete request naming "a.jpg", the absent "zz.jpg" and "b.jpg", on a
    card where every removal succeeds. *)
Definition delete_request : list Param :=
  [mkParam "file" "a.jpg" true false; mkParam "file" "zz.jpg" true false;
   mkParam "file" "b.jpg" true false].

(** A /set-speed request whose form field "speed" holds [speedValue]. *)
Definition speed_request (speedValue : string) : list Param :=
  [mkParam "speed" speedValue true false].

(** The state reached on the card of 40000 pictures after picture 39999:
    picture 0 is on the screen and the index is [(int16_t)40000]. *)
Definition after_wrap : State :=
  set_currentImageName (picture_name 0)
    (set_currentIndex (-25536)
       (set_sdFatUp true (set_sdMounted true (set_fileCount 40000 initial)))).

Definition card_abc : gset string := {[ "/a.jpg"; "/b.jpg"; "/c.jpg" ]}%string.

(** ** Further handlers and [setup] *)


(** The GET [/delete] page: status, the values of the check boxes in the
    order of the page, and whether the "No files found." note is added. *)
Record DeleteForm : Type := mkDeleteForm {
  formStatus : Z;
  checkboxes : list string;
  noFilesNote : bool
}.

(** The listing loop of the page: every entry but the one named
    "System Volume Information" gets a check box. *)
Fixpoint listed_names (entries : list Entry) : list string :=
  match entries with
  | [] => []
  | entry :: rest =>
      if strcasecmp_eq (getName entry) "System Volume Information"
      then listed_names rest
      else getName entry :: listed_names rest
  end.

Definition delete_page_handler (env : Env) (s : State) : State * DeleteForm :=
  let '(mounted, s) := checkAndMountSDCard env s in
  if negb mounted then (emit (EvSend 500) s, mkDeleteForm 500 [] false)
  else
    let names := listed_names (dir env) in
    let fileFound := match names with [] => false | _ :: _ => true end in
    (emit (EvSend 200) s, mkDeleteForm 200 names (negb fileFound)).

(** What a browser posts to [/delete_files] when the boxes in [checked] are
    ticked: one POST parameter "file" per box. *)
Definition submit_checked (checked : list string) : list Param :=
  List.map (fun name => mkParam "file" name true false) checked.

(** The GET [/speed] page: the value the form field "speed" is filled with,
    [String(X)], the decimal rendering of the [int]. *)
Definition speed_page_value (s : State) : string := pretty (X s).

(** The end of [setup], from [String ip = WiFi.localIP().toString()] on.
    [localIP k] is what the [k]-th call of [WiFi.localIP().toString()]
    returns. The result carries the messages passed to [error], in order. *)
Fixpoint wait_for_ip (localIP : nat -> string) (left_ : nat) (calls : nat) (ip : string)
    : string :=
  if String.eqb ip "0.0.0.0" then
    match left_ with
    | O => ip
    | S left_ => wait_for_ip localIP left_ (S calls) (localIP (S calls))
    end
  else ip.

(** The same card with [root] never opened: [openNext] yields nothing. *)
Definition root_closed (env : Env) : Env :=
  mkEnv [] (jpeg_open env) (SD_begin env) (wav_begin env) (wav_chunks env)
        (sd_begin env) (music_exists env) (file_open env).

Definition setup_end (env : Env) (localIP : nat -> string) (s : State)
    : result (State * list string) :=
  let ip := localIP 0%nat in
  let ip := if String.eqb ip "0.0.0.0" then wait_for_ip localIP 10 0 ip else ip in
  if String.eqb ip "0.0.0.0" then mret (s, [])
  else
    let '(mounted, s) := checkAndMountSDCard env s in
    r ← (if negb mounted then mret (s, ["SD Card Mount Failed"%string], root_closed env)
         else
           n ← countImages (dir env) 0;
           mret (set_fileCount n s, [], env));
    let '(s, errors, env) := r in
    let errors := if fileCount s =? 0 then errors ++ ["No .JPG images found"%string]
                  else errors in
    let s := set_currentIndex 0 s in
    s ← loadImage env (to_uint16 (currentIndex s)) s;
    mret (s, errors).

(** What [playWAV] adds to the trace, most recent first. *)
Definition playWAV_events (env : Env) : list Event :=
  if SD_begin env then
    if wav_begin env then
      [EvGive; EvSdFatBegin (sd_begin env); EvSDEnd; EvTake;
       EvWavStop; EvWavStop; EvWavLoop false]
      ++ List.repeat (EvWavLoop true) (wav_chunks env)
      ++ [EvWavBegin true; EvGive; EvSDBegin true; EvSdFatEnd; EvTake]
    else [EvWavStop; EvWavBegin false; EvGive; EvSDBegin true; EvSdFatEnd; EvTake]
  else [EvGive; EvSDBegin false; EvSdFatEnd; EvTake].

(** Number of entries satisfying a test. *)
Definition count_entries (test : Entry -> bool) (entries : list Entry) : Z :=
  Z.of_nat (List.length (List.filter test entries)).

(** The bounds of a C [int] on the ESP32. *)
Definition is_int (z : Z) : Prop := LONG_MIN <= z <= LONG_MAX.

(** A card on which the final [sd.begin] fails. *)
Definition unmountable : Env :=
  mkEnv [file "a.jpg"; file "b.JPG"; file "c.jpg"] (fun _ => true)
        true true 1 false true (fun _ => true).



Definition no_ip (k : nat) : string := "0.0.0.0"%string.

(** * Properties *)

(** ** Machine integers *)

Lemma to_uint16_small z : 0 <= z < 65536 -> to_uint16 z = z.
Proof. intros H. unfold to_uint16. apply Z.mod_small. exact H. Qed.

Lemma to_int16_small z : -32768 <= z < 32768 -> to_int16 z = z.
Proof. intros H. unfold to_int16. rewrite Z.mod_small; lia. Qed.

Lemma to_uint16_range z : 0 <= to_uint16 z < 65536.
Proof. unfold to_uint16. apply Z.mod_pos_bound. lia. Qed.

Lemma c_rem_nonneg a b : 0 <= a -> 0 < b -> c_rem a b = a mod b.
Proof. intros Ha Hb. unfold c_rem. apply Z.rem_mod_nonneg; lia. Qed.

(** ** The suffix test *)

Lemma hasJpgSuffix_ok name :
  (3 <= String.length name)%nat -> hasJpgSuffix name = Ok (lastThreeAreJpg name).
Proof.
  intros H. unfold hasJpgSuffix.
  destruct (Nat.ltb_spec (String.length name) 3) as [Hlt|Hge]; [lia | reflexivity].
Qed.

(** ** The mutex *)

Lemma give_after_take s :
  xSpiMutex s = false ->
  set_xSpiMutex false (set_xSpiMutex true s) = s.
Proof. destruct s; simpl; intros ->; reflexivity. Qed.

(** ** Rendering *)

Section Rendering.

Variable env : Env.

Lemma decodeJpeg_eq name s :
  xSpiMutex s = false -> slideshowActive s = true ->
  decodeJpeg env name s = Ok (set_trace (decode_trace env name ++ trace s) s).
Proof.
  intros Hm Ha. unfold decodeJpeg, xSemaphoreTake, decode_trace.
  rewrite Ha, Hm. simpl.
  destruct s; simpl in *; subst.
  destruct (jpeg_open env name); reflexivity.
Qed.

Lemma decodeJpeg_suspended name s :
  slideshowActive s = false -> decodeJpeg env name s = Ok s.
Proof. intros Ha. unfold decodeJpeg. rewrite Ha. reflexivity. Qed.

Lemma showEntry_eq name s :
  xSpiMutex s = false -> slideshowActive s = true ->
  showEntry env name s =
  Ok (set_trace (EvWsTextAll "update" :: decode_trace env name ++ trace s)
                (set_currentImageName name s)).
Proof.
  intros Hm Ha. unfold showEntry.
  rewrite decodeJpeg_eq by (destruct s; assumption).
  reflexivity.
Qed.

Lemma loadImage_scan_nth entries : forall index targetIndex s,
  names_ok entries ->
  0 <= index <= targetIndex -> targetIndex < 65536 ->
  loadImage_scan env entries index targetIndex s =
  match eligible_names entries !! Z.to_nat (targetIndex - index) with
  | Some name => showEntry env name s
  | None => Ok s
  end.
Proof.
  induction entries as [|entry rest IH]; intros index targetIndex s Hok Hi Ht.
  - reflexivity.
  - apply Forall_cons in Hok as [Hlen Hok].
    simpl. unfold eligible_names, eligible at 1. simpl.
    destruct (isDirectory entry); simpl.
    + apply IH; assumption.
    + rewrite (hasJpgSuffix_ok _ Hlen). simpl.
      destruct (lastThreeAreJpg (getName entry)); simpl.
      * destruct (Z.eqb_spec index targetIndex) as [->|Hne].
        -- rewrite Z.sub_diag. reflexivity.
        -- rewrite to_uint16_small by lia.
           rewrite IH by (assumption || lia).
           replace (Z.to_nat (targetIndex - index))
             with (S (Z.to_nat (targetIndex - (index + 1)))) by lia.
           reflexivity.
      * apply IH; assumption.
Qed.

Lemma loadImage_eq targetIndex s :
  names_ok (dir env) -> slideshowActive s = true ->
  0 <= targetIndex < 65536 ->
  loadImage env targetIndex s =
  match eligible_names (dir env) !! Z.to_nat (resolved_index targetIndex s) with
  | Some name => showEntry env name s
  | None => Ok s
  end.
Proof.
  intros Hok Ha Ht. unfold loadImage, resolved_index. rewrite Ha. simpl.
  destruct (targetIndex >=? fileCount s).
  - rewrite loadImage_scan_nth by (assumption || lia). reflexivity.
  - rewrite loadImage_scan_nth by (assumption || lia).
    rewrite Z.sub_0_r. reflexivity.
Qed.

Lemma loadImage_suspended targetIndex s :
  slideshowActive s = false -> loadImage env targetIndex s = Ok s.
Proof. intros Ha. unfold loadImage. rewrite Ha. reflexivity. Qed.

Lemma loadImage_run targetIndex s :
  names_ok (dir env) -> xSpiMutex s = false ->
  0 <= targetIndex < 65536 ->
  loadImage env targetIndex s = Ok (after_loadImage env targetIndex s).
Proof.
  intros Hok Hm Ht. unfold after_loadImage.
  destruct (slideshowActive s) eqn:Ha.
  - rewrite loadImage_eq by assumption.
    destruct (eligible_names (dir env) !! _) as [name|]; [|reflexivity].
    apply showEntry_eq; assumption.
  - apply loadImage_suspended. exact Ha.
Qed.

(** [loadImage] touches only [currentImageName] and the trace. *)
Lemma after_loadImage_frame targetIndex s :
  let s' := after_loadImage env targetIndex s in
  currentIndex s' = currentIndex s /\ fileCount s' = fileCount s /\
  timer s' = timer s /\ X s' = X s /\ buttonPressed s' = buttonPressed s /\
  slideshowActive s' = slideshowActive s /\ xSpiMutex s' = xSpiMutex s /\
  sdMounted s' = sdMounted s /\ sdFatUp s' = sdFatUp s /\ SDUp s' = SDUp s.
Proof.
  unfold after_loadImage. destruct (slideshowActive s) eqn:Ha.
  - destruct (eligible_names (dir env) !! _) as [name|]; simpl; rewrite ?Ha; tauto.
  - simpl. rewrite Ha. tauto.
Qed.

End Rendering.

(** ** Index lookup of [loadImage] *)

(** C4, as stated, fails: with three pictures and index 4 the claim's
    [4 mod 3 = 1] designates "b.JPG", and [loadImage] shows "a.jpg". *)
Lemma loadImage_does_not_wrap_modulo :
  eligible_names (dir three_pictures) !! Z.to_nat (4 mod fileCount three_counted)
    = Some "b.JPG"%string /\
  exists s', loadImage three_pictures 4 three_counted = Ok s' /\
             currentImageName s' = "a.jpg"%string /\
             In (EvJpegDecode "a.jpg") (trace s') /\
             ~ In (EvJpegDecode "b.JPG") (trace s').
Proof.
  split; [reflexivity|].
  eexists. split; [reflexivity|]. simpl.
  split; [reflexivity|]. split; [tauto|].
  intros H. repeat (destruct H as [H|H]; [discriminate H|]). exact H.
Qed.

(** C4 (amended): for a catalog with [fileCount > 0] entries and every
    requested index, [loadImage] shows the entry at the index itself when it
    is below [fileCount] and the entry at ordinal 0 otherwise; it never fails. *)
Theorem loadImage_out_of_range_shows_first env targetIndex s :
  names_ok (dir env) ->
  slideshowActive s = true -> xSpiMutex s = false ->
  fileCount s = Z.of_nat (List.length (eligible_names (dir env))) ->
  0 < fileCount s ->
  0 <= targetIndex < 65536 ->
  exists name,
    eligible_names (dir env)
      !! Z.to_nat (if targetIndex >=? fileCount s then 0 else targetIndex) = Some name /\
    loadImage env targetIndex s =
      Ok (set_trace (EvWsTextAll "update" :: decode_trace env name ++ trace s)
                    (set_currentImageName name s)).
Proof.
  intros Hok Ha Hm Hcount Hpos Ht.
  rewrite loadImage_eq by assumption. unfold resolved_index.
  set (k := Z.to_nat (if targetIndex >=? fileCount s then 0 else targetIndex)).
  assert (Hk : (k < List.length (eligible_names (dir env)))%nat).
  { subst k. destruct (Z.geb_spec targetIndex (fileCount s)); lia. }
  destruct (lookup_lt_is_Some_2 _ _ Hk) as [name Hname].
  exists name. rewrite Hname. split; [reflexivity|].
  apply showEntry_eq; assumption.
Qed.

Lemma loadImage_out_of_range_shows_first_witness :
  exists name,
    eligible_names (dir three_pictures)
      !! Z.to_nat (if 4 >=? fileCount three_counted then 0 else 4) = Some name /\
    loadImage three_pictures 4 three_counted =
      Ok (set_trace (EvWsTextAll "update" :: decode_trace three_pictures name
                       ++ trace three_counted)
                    (set_currentImageName name three_counted)).
Proof.
  apply (loadImage_out_of_range_shows_first three_pictures 4 three_counted).
  - repeat constructor.
  - reflexivity.
  - reflexivity.
  - reflexivity.
  - reflexivity.
  - split; [discriminate | reflexivity].
Defined.

(** ** Name and notification *)

(** C3, as stated, fails: when [jpeg.open] refuses the picture,
    [currentImageName] has already been overwritten and "update" is still
    broadcast. *)
Lemma loadImage_failed_decode_still_updates :
  currentImageName three_counted = ""%string /\
  exists s', loadImage three_corrupt 0 three_counted = Ok s' /\
             In (EvJpegOpen "a.jpg" false) (trace s') /\
             currentImageName s' = "a.jpg"%string /\
             In (EvWsTextAll "update") (trace s').
Proof.
  split; [reflexivity|].
  eexists. split; [reflexivity|]. simpl. tauto.
Qed.

(** C3 (amended): when [loadImage] finds the entry at the target index while
    the slideshow is active, [currentImageName] becomes that entry's name and
    "update" is broadcast once, after [decodeJpeg] has returned, whether
    [jpeg.open] succeeded or not; when the slideshow is suspended or no entry
    is found, nothing changes and nothing is broadcast. *)
Theorem loadImage_name_and_update env targetIndex s :
  names_ok (dir env) -> xSpiMutex s = false ->
  0 <= targetIndex < 65536 ->
  exists s', loadImage env targetIndex s = Ok s' /\
    match
      (if slideshowActive s
       then eligible_names (dir env) !! Z.to_nat (resolved_index targetIndex s)
       else None)
    with
    | Some name =>
        currentImageName s' = name /\
        trace s' =
          EvWsTextAll "update" ::
          (if jpeg_open env name
           then [EvGive; EvJpegClose; EvJpegDecode name; EvFillScreen;
                 EvJpegOpen name true; EvTake]
           else [EvGive; EvJpegOpen name false; EvTake]) ++ trace s
    | None => s' = s
    end.
Proof.
  intros Hok Hm Ht. destruct (slideshowActive s) eqn:Ha.
  - rewrite loadImage_eq by assumption.
    destruct (eligible_names (dir env) !! Z.to_nat (resolved_index targetIndex s))
      as [name|].
    + rewrite showEntry_eq by assumption. eexists. split; [reflexivity|].
      simpl. split; reflexivity.
    + exists s. split; reflexivity.
  - rewrite loadImage_suspended by assumption. exists s. split; reflexivity.
Qed.

Lemma loadImage_name_and_update_witness :
  exists s', loadImage three_corrupt 1 three_counted = Ok s' /\
    currentImageName s' = "b.JPG"%string /\
    trace s' = [EvWsTextAll "update"; EvGive; EvJpegOpen "b.JPG" false; EvTake].
Proof.
  destruct (loadImage_name_and_update three_corrupt 1 three_counted)
    as [s' [Hrun Hpost]].
  - repeat constructor.
  - reflexivity.
  - split; [discriminate | reflexivity].
  - exists s'. split; [exact Hrun|]. exact Hpost.
Defined.

(** ** Resume *)

(** C5, as stated, fails: [restartSlideshow] leaves [timer] alone. The
    slideshow is stopped; the tick at 15000 ms advances the index and sets
    the baseline (nothing is shown while suspended); the slideshow is resumed
    at 20000 ms; the tick at 25001 ms advances again, 5001 ms after the
    resume, with an interval of 10 s. *)
Lemma restartSlideshow_keeps_timer_baseline :
  X showing_first = 10 /\
  exists s0 s1 s2 s3,
    stopSlideshow showing_first = Ok s0 /\
    loop three_pictures 15000 15000 s0 = Ok s1 /\
    slideshowActive s1 = false /\ timer s1 = 15000 /\
    restartSlideshow three_pictures s1 = Ok s2 /\
    timer s2 = 15000 /\ buttonPressed s2 = false /\ currentIndex s2 = 1 /\
    25001 - 20000 < X s2 * 1000 /\
    loop three_pictures 25001 25001 s2 = Ok s3 /\
    currentIndex s3 = 2.
Proof.
  split; [reflexivity|].
  eexists. eexists. eexists. eexists.
  split; [vm_compute; reflexivity|].
  split; [vm_compute; reflexivity|].
  split; [reflexivity|]. split; [reflexivity|].
  split; [vm_compute; reflexivity|].
  split; [reflexivity|]. split; [reflexivity|]. split; [reflexivity|].
  split; [reflexivity|].
  split; [vm_compute; reflexivity|]. reflexivity.
Qed.

(** C5 (amended): from a suspended state, [restartSlideshow] marks the
    slideshow active and shows again the image at [currentIndex]; it leaves
    [timer] (and [X], [currentIndex]) unchanged, so the test of [loop] still
    measures the interval from the baseline of the last advance. *)
Theorem restartSlideshow_rerenders_keeps_timer env s :
  names_ok (dir env) ->
  slideshowActive s = false -> xSpiMutex s = false ->
  fileCount s = Z.of_nat (List.length (eligible_names (dir env))) ->
  0 <= currentIndex s < fileCount s ->
  fileCount s < 65536 ->
  exists name s',
    eligible_names (dir env) !! Z.to_nat (currentIndex s) = Some name /\
    restartSlideshow env s = Ok s' /\
    slideshowActive s' = true /\
    currentImageName s' = name /\
    trace s' = EvWsTextAll "update" :: decode_trace env name ++ trace s /\
    currentIndex s' = currentIndex s /\
    X s' = X s /\
    timer s' = timer s /\
    forall now,
      (to_uint32 (now - timer s') >? to_uint32 (X s' * 1000)) =
      (to_uint32 (now - timer s) >? to_uint32 (X s * 1000)).
Proof.
  intros Hok Ha Hm Hcount Hi Hlt.
  assert (Hk : (Z.to_nat (currentIndex s) < List.length (eligible_names (dir env)))%nat)
    by lia.
  destruct (lookup_lt_is_Some_2 _ _ Hk) as [name Hname].
  exists name. unfold restartSlideshow.
  rewrite loadImage_eq; [| assumption | reflexivity | ].
  2:{ simpl. rewrite to_uint16_small by lia. lia. }
  unfold resolved_index. simpl.
  rewrite to_uint16_small by lia.
  destruct (Z.geb_spec (currentIndex s) (fileCount s)) as [Hge|_]; [lia|].
  rewrite Hname.
  rewrite showEntry_eq; [| exact Hm | reflexivity].
  eexists. split; [reflexivity|]. split; [reflexivity|]. simpl.
  repeat (split; [reflexivity|]). intros now. reflexivity.
Qed.

Lemma restartSlideshow_rerenders_keeps_timer_witness :
  exists name s',
    restartSlideshow three_pictures
      (set_timer 5000 (set_currentIndex 2 (set_slideshowActive false three_counted)))
      = Ok s' /\
    currentImageName s' = name /\ name = "c.jpg"%string /\ timer s' = 5000.
Proof.
  destruct (restartSlideshow_rerenders_keeps_timer three_pictures
              (set_timer 5000 (set_currentIndex 2 (set_slideshowActive false three_counted))))
    as (name & s' & Hname & Hrun & _ & Himg & _ & _ & _ & Htimer & _).
  - repeat constructor.
  - reflexivity.
  - reflexivity.
  - reflexivity.
  - split; [discriminate | reflexivity].
  - reflexivity.
  - exists name, s'. split; [exact Hrun|]. split; [exact Himg|].
    split; [|exact Htimer]. simpl in Hname. congruence.
Defined.


(** ** Advance *)

Section Advance.

Variable env : Env.

Lemma loop_empty now now' s : fileCount s = 0 -> loop env now now' s = Ok s.
Proof. intros H. unfold loop. rewrite H. reflexivity. Qed.

Lemma loop_not_due now now' s : due now s = false -> loop env now now' s = Ok s.
Proof.
  intros H. unfold loop. unfold due in H. rewrite H.
  destruct (fileCount s >? 0); reflexivity.
Qed.

(** One advance: what [loop] does when the catalog is not empty and the
    interval has elapsed or the button was pressed. *)
Lemma loop_advance now now' s :
  names_ok (dir env) -> xSpiMutex s = false ->
  0 < fileCount s -> due now s = true ->
  loop env now now' s =
  Ok (let next := to_int16 (c_rem (currentIndex s + 1) (fileCount s)) in
      set_buttonPressed false
        (set_timer now'
           (after_loadImage env (to_uint16 next) (set_currentIndex next s)))).
Proof.
  intros Hok Hm Hpos Hdue. unfold loop. unfold due in Hdue. rewrite Hdue.
  destruct (Z.gtb_spec (fileCount s) 0) as [_|Hle]; [|lia].
  cbv zeta.
  change (currentIndex (set_currentIndex ?n s)) with n.
  rewrite loadImage_run; [reflexivity | assumption | exact Hm | apply to_uint16_range].
Qed.

(** The arithmetic of the advance when index and count fit [int16_t]. *)
Lemma next_index_small i n :
  0 <= i < 32768 -> 0 < n <= 32768 ->
  to_int16 (c_rem (i + 1) n) = (i + 1) mod n.
Proof.
  intros Hi Hn. rewrite c_rem_nonneg by lia.
  assert (0 <= (i + 1) mod n < n) by (apply Z.mod_pos_bound; lia).
  apply to_int16_small. lia.
Qed.

(** For catalogs of at most 32768 entries the advance is [(i + 1) mod N],
    and in the running state with a counted catalog the entry shown is the
    one at that ordinal. *)
Lemma loop_advance_small now now' s :
  names_ok (dir env) -> xSpiMutex s = false ->
  0 < fileCount s <= 32768 -> 0 <= currentIndex s < 32768 ->
  due now s = true ->
  exists s', loop env now now' s = Ok s' /\
    currentIndex s' = (currentIndex s + 1) mod fileCount s /\
    timer s' = now' /\ buttonPressed s' = false /\
    fileCount s' = fileCount s /\ X s' = X s /\
    slideshowActive s' = slideshowActive s /\ xSpiMutex s' = false /\
    (slideshowActive s = true ->
     forall name,
       eligible_names (dir env) !! Z.to_nat ((currentIndex s + 1) mod fileCount s)
         = Some name ->
       currentImageName s' = name /\
       trace s' = EvWsTextAll "update" :: decode_trace env name ++ trace s).
Proof.
  intros Hok Hm Hn Hi Hdue.
  rewrite loop_advance by (assumption || lia). cbv zeta.
  rewrite next_index_small by lia.
  set (next := (currentIndex s + 1) mod fileCount s).
  assert (Hnext : 0 <= next < fileCount s) by (apply Z.mod_pos_bound; lia).
  eexists. split; [reflexivity|].
  pose proof (after_loadImage_frame env (to_uint16 next) (set_currentIndex next s))
    as (H1 & H2 & H3 & H4 & H5 & H6 & H7 & _).
  simpl in *.
  repeat (split; [first [reflexivity | congruence]|]).
  intros Ha name Hname. unfold after_loadImage, resolved_index. simpl.
  rewrite Ha, to_uint16_small by lia.
  destruct (Z.geb_spec next (fileCount s)) as [Hge|_]; [lia|].
  rewrite Hname. simpl. split; reflexivity.
Qed.

(** The index after an advance, whatever the size of the catalog. *)
Lemma loop_advance_index now now' s :
  names_ok (dir env) -> xSpiMutex s = false ->
  0 < fileCount s -> due now s = true ->
  exists s', loop env now now' s = Ok s' /\
    currentIndex s' = to_int16 (c_rem (currentIndex s + 1) (fileCount s)).
Proof.
  intros Hok Hm Hpos Hdue. rewrite loop_advance by assumption. cbv zeta.
  eexists. split; [reflexivity|].
  pose proof (after_loadImage_frame env
                (to_uint16 (to_int16 (c_rem (currentIndex s + 1) (fileCount s))))
                (set_currentIndex (to_int16 (c_rem (currentIndex s + 1) (fileCount s))) s))
    as (H1 & _).
  simpl in *. exact H1.
Qed.

(** Repeated advances visit [i + 1], [i + 2], ... modulo the count. *)
Lemma advances_small clock n : forall s,
  names_ok (dir env) -> xSpiMutex s = false ->
  0 < fileCount s <= 32768 -> 0 <= currentIndex s < fileCount s ->
  exists s', advances env clock n s = Ok s' /\
    currentIndex s' = (currentIndex s + Z.of_nat n) mod fileCount s /\
    fileCount s' = fileCount s /\ xSpiMutex s' = false.
Proof.
  induction n as [|k IH]; intros s Hok Hm Hn Hi.
  - exists s. simpl. rewrite Z.add_0_r, Z.mod_small by lia. auto.
  - destruct (IH s Hok Hm Hn Hi) as (s1 & Hrun & Hidx & Hcnt & Hmx).
    simpl. rewrite Hrun. simpl.
    assert (Hr : 0 <= currentIndex s1 < fileCount s).
    { rewrite Hidx. apply Z.mod_pos_bound. lia. }
    destruct (loop_advance_small (clock k) (clock k) (buttonInt s1))
      as (s2 & Hloop & Hidx2 & _ & _ & Hcnt2 & _ & _ & Hmx2 & _).
    + exact Hok.
    + exact Hmx.
    + simpl. lia.
    + simpl. lia.
    + unfold due. simpl. apply orb_true_r.
    + exists s2. split; [exact Hloop|]. simpl in *.
      rewrite Hidx2, Hcnt2, Hcnt, Hidx. split; [|auto].
      rewrite Zplus_mod_idemp_l. f_equal. lia.
Qed.

End Advance.

(** The sample card of 40000 pictures is a counted catalog. *)
Lemma substring_skip p : forall n s,
  substring (String.length p + n) 3 (p ++ s) = substring n 3 s.
Proof.
  induction p as [|c p IH]; intros n s; [reflexivity|].
  simpl. apply IH.
Qed.

Lemma length_app_string p : forall s,
  String.length (p ++ s) = (String.length p + String.length s)%nat.
Proof.
  induction p as [|c p IH]; intros s; [reflexivity|].
  simpl. rewrite IH. reflexivity.
Qed.

Lemma lastThreeAreJpg_suffix p : lastThreeAreJpg (p ++ ".JPG") = true.
Proof.
  unfold lastThreeAreJpg. rewrite length_app_string.
  replace (String.length p + String.length ".JPG" - 3)%nat
    with (String.length p + 1)%nat by (simpl; lia).
  rewrite substring_skip. reflexivity.
Qed.

Lemma picture_name_jpg k :
  lastThreeAreJpg (picture_name k) = true /\ (3 <= String.length (picture_name k))%nat.
Proof.
  unfold picture_name.
  replace ("IMG" ++ pretty k ++ ".JPG")%string with (("IMG" ++ pretty k) ++ ".JPG")%string.
  - split; [apply lastThreeAreJpg_suffix|].
    rewrite length_app_string. simpl. lia.
  - generalize (pretty k). intros p. reflexivity.
Qed.

Lemma many_entries_eligible :
  List.length (eligible_names many_entries) = Z.to_nat 40000 /\ names_ok many_entries.
Proof.
  unfold many_entries. generalize (Z.to_nat 40000) as n. generalize 0%nat as start.
  intros start n. revert start.
  induction n as [|n IH]; intros start.
  - split; [reflexivity | constructor].
  - destruct (IH (S start)) as [Hlen Hok].
    destruct (picture_name_jpg start) as [Hjpg H3].
    cbn [List.seq List.map]. split.
    + unfold eligible_names in *. cbn [List.filter]. unfold eligible at 1.
      cbn [file isDirectory getName negb andb]. rewrite Hjpg.
      cbn [List.map List.length]. rewrite Hlen. reflexivity.
    + constructor; [exact H3 | exact Hok].
Qed.

(** C6: the advance of [loop] misses [(i + 1) mod N] on a catalog of more
    than 32768 pictures. With 40000 counted pictures and the slideshow at
    picture 32767, [(32767 + 1) % 40000 = 32768] does not fit the [int16_t]
    index, which becomes -32768. *)
Theorem loop_advance_wraps_int16 :
  fileCount at_32767 = Z.of_nat (List.length (eligible_names (dir many_pictures))) /\
  currentIndex at_32767 = 32767 /\
  (currentIndex at_32767 + 1) mod fileCount at_32767 = 32768 /\
  due 10001 at_32767 = true /\
  exists s', loop many_pictures 10001 10002 at_32767 = Ok s' /\
             currentIndex s' = -32768.
Proof.
  destruct many_entries_eligible as [Hlen Hok].
  change (dir many_pictures) with many_entries.
  split; [rewrite Hlen, Z2Nat.id by lia; reflexivity|].
  split; [reflexivity|]. split; [reflexivity|]. split; [vm_compute; reflexivity|].
  destruct (loop_advance_index many_pictures 10001 10002 at_32767)
    as (s' & Hrun & Hidx).
  - exact Hok.
  - reflexivity.
  - reflexivity.
  - vm_compute. reflexivity.
  - exists s'. split; [exact Hrun|]. rewrite Hidx. vm_compute. reflexivity.
Qed.

Lemma many_entries_first :
  eligible_names many_entries !! 0%nat = Some (picture_name 0).
Proof.
  unfold many_entries.
  replace (Z.to_nat 40000) with (S (Z.to_nat 39999)) by lia.
  cbn [List.seq List.map]. unfold eligible_names. cbn [List.filter].
  unfold eligible at 1. cbn [file isDirectory getName negb andb].
  destruct (picture_name_jpg 0) as [-> _]. reflexivity.
Qed.

(** After picture 39999 the index is [(int16_t)40000 = -25536] and picture 0
    is shown; the next advance gives -25535, which [loadImage] receives as
    40001 and resolves to picture 0 again, where [(0 + 1) mod 40000] is
    picture 1. *)
Lemma loop_after_wrap_repeats_first :
  to_int16 40000 = currentIndex after_wrap /\
  currentImageName after_wrap = picture_name 0 /\
  exists s', loop many_pictures 10001 10002 after_wrap = Ok s' /\
             currentIndex s' = -25535 /\
             currentImageName s' = picture_name 0.
Proof.
  split; [vm_compute; reflexivity|]. split; [reflexivity|].
  destruct many_entries_eligible as [_ Hok].
  rewrite loop_advance;
    [| exact Hok | reflexivity | reflexivity | vm_compute; reflexivity].
  cbv zeta.
  assert (Hnext : to_int16 (c_rem (currentIndex after_wrap + 1) (fileCount after_wrap))
                  = -25535) by (vm_compute; reflexivity).
  rewrite Hnext.
  assert (Hu : to_uint16 (-25535) = 40001) by (vm_compute; reflexivity).
  rewrite Hu.
  eexists. split; [reflexivity|].
  pose proof (after_loadImage_frame many_pictures 40001
                (set_currentIndex (-25535) after_wrap)) as (H1 & _).
  split.
  - change (currentIndex (set_buttonPressed _ (set_timer _ ?x))) with (currentIndex x).
    rewrite H1. reflexivity.
  - change (currentImageName (set_buttonPressed _ (set_timer _ ?x)))
      with (currentImageName x).
    unfold after_loadImage, resolved_index.
    change (slideshowActive (set_currentIndex (-25535) after_wrap)) with true.
    change (fileCount (set_currentIndex (-25535) after_wrap)) with 40000.
    change (40001 >=? 40000) with true. cbv iota.
    change (dir many_pictures) with many_entries.
    change (Z.to_nat 0) with 0%nat.
    rewrite many_entries_first. reflexivity.
Qed.

(** ** Playback *)

Lemma wav_play_frame n : forall s, exists t, wav_play n s = set_trace t s.
Proof.
  induction n as [|k IH]; intros s.
  - eexists. reflexivity.
  - simpl. destruct (IH (emit (EvWavLoop true) s)) as [t Ht].
    exists t. rewrite Ht. reflexivity.
Qed.

(** [playWAV] from a free mutex: it returns, with the mutex free again; the
    SdFat volume is mounted afterwards only when [SD.begin], [wav->begin] and
    the final [sd.begin] all succeeded, and [SD] is left begun when
    [wav->begin] failed. *)
Lemma playWAV_run env s :
  xSpiMutex s = false ->
  exists t,
    playWAV env s =
    Ok (set_trace t
          (set_SDUp (if SD_begin env then negb (wav_begin env) else SDUp s)
             (set_sdFatUp (SD_begin env && wav_begin env && sd_begin env)
                (set_sdMounted (SD_begin env && wav_begin env && sd_begin env) s)))).
Proof.
  intros Hm. unfold playWAV, xSemaphoreTake. rewrite Hm. simpl.
  destruct (SD_begin env); simpl.
  - destruct (wav_begin env); simpl.
    + match goal with |- context [wav_play ?n ?x] =>
        destruct (wav_play_frame n x) as [t Ht]; rewrite Ht end.
      simpl. unfold checkAndMountSDCard. simpl.
      destruct (sd_begin env); simpl; eexists;
        destruct s; simpl in *; subst; reflexivity.
    + eexists. destruct s; simpl in *; subst; reflexivity.
  - eexists. destruct s; simpl in *; subst; reflexivity.
Qed.

Lemma restartSlideshow_run env s :
  names_ok (dir env) -> xSpiMutex s = false ->
  restartSlideshow env s =
  Ok (after_loadImage env (to_uint16 (currentIndex s)) (set_slideshowActive true s)).
Proof.
  intros Hok Hm. unfold restartSlideshow.
  apply loadImage_run; [assumption | exact Hm | apply to_uint16_range].
Qed.

(** The task always returns and leaves the slideshow active; whether the bus
    is back in catalog mode depends on the three calls. *)
Lemma playWAVTask_run env s :
  names_ok (dir env) -> xSpiMutex s = false ->
  exists s', playWAVTask env s = Ok s' /\
    slideshowActive s' = true /\ xSpiMutex s' = false /\
    currentIndex s' = currentIndex s /\ fileCount s' = fileCount s /\
    timer s' = timer s /\ X s' = X s /\
    sdMounted s' = SD_begin env && wav_begin env && sd_begin env /\
    sdFatUp s' = SD_begin env && wav_begin env && sd_begin env /\
    SDUp s' = (if SD_begin env then negb (wav_begin env) else SDUp s).
Proof.
  intros Hok Hm. unfold playWAVTask.
  destruct (playWAV_run env s Hm) as [t Ht]. rewrite Ht. simpl.
  rewrite restartSlideshow_run by (assumption || exact Hm).
  eexists. split; [reflexivity|].
  match goal with |- context [after_loadImage env ?i ?x] =>
    pose proof (after_loadImage_frame env i x)
      as (H1 & H2 & H3 & H4 & H5 & H6 & H7 & H8 & H9 & H10) end.
  simpl in *. rewrite H1, H2, H3, H4, H6, H7, H8, H9, H10. auto 10.
Qed.

Lemma stopSlideshow_run s :
  xSpiMutex s = false ->
  stopSlideshow s =
  Ok (set_trace ([EvGive; EvJpegClose; EvTake] ++ trace s) (set_slideshowActive false s)).
Proof.
  intros Hm. unfold stopSlideshow, xSemaphoreTake. simpl. rewrite Hm. simpl.
  destruct s; simpl in *; subst; reflexivity.
Qed.

(** C2: when [wav->begin] fails, [playWAV] returns before [SD.end()] and
    the remount of SdFat; the task then restarts the slideshow with the
    SdFat volume still unmounted and the bus still in audio mode. *)
Theorem playWAVTask_skips_restore_when_begin_fails :
  wav_begin bad_wav = false /\
  exists s0 s',
    stopSlideshow showing_first = Ok s0 /\
    playWAVTask bad_wav s0 = Ok s' /\
    slideshowActive s' = true /\
    sdMounted s' = false /\ sdFatUp s' = false /\ SDUp s' = true /\
    ~ In EvSDEnd (trace s') /\ ~ In (EvSdFatBegin true) (trace s').
Proof.
  split; [reflexivity|].
  eexists. eexists. split; [reflexivity|]. split; [vm_compute; reflexivity|].
  repeat (split; [reflexivity|]).
  split; intros H; simpl in H;
    repeat (destruct H as [H|H]; [discriminate H|]); exact H.
Qed.

(** ** Catalog rebuild *)

Lemma countImages_eq entries : forall c,
  names_ok entries -> 0 <= c < 65536 ->
  countImages entries c =
  Ok ((c + Z.of_nat (List.length (List.filter counted entries))) mod 65536).
Proof.
  induction entries as [|entry rest IH]; intros c Hok Hc.
  - simpl. rewrite Z.add_0_r, Z.mod_small by lia. reflexivity.
  - apply Forall_cons in Hok as [Hlen Hok]. simpl.
    rewrite (hasJpgSuffix_ok _ Hlen). simpl. unfold counted at 1.
    destruct (lastThreeAreJpg (getName entry)).
    + rewrite IH by (assumption || apply to_uint16_range).
      unfold to_uint16. rewrite Zplus_mod_idemp_l. f_equal. f_equal.
      simpl List.length. lia.
    + apply IH; assumption.
Qed.

Lemma counted_eligible entries :
  no_jpg_directory entries ->
  List.filter counted entries = List.filter eligible entries.
Proof.
  induction 1 as [|entry rest Hd _ IH]; [reflexivity|].
  simpl. rewrite IH. unfold counted, eligible.
  destruct (isDirectory entry) eqn:E; simpl.
  - rewrite Hd by reflexivity. reflexivity.
  - reflexivity.
Qed.

(** What [handleFileUpload] leaves in [fileCount] and [currentIndex]. *)
Lemma handleFileUpload_run env s :
  names_ok (dir env) -> xSpiMutex s = false ->
  exists s', handleFileUpload env s = Ok s' /\
    fileCount s' = Z.of_nat (List.length (List.filter counted (dir env))) mod 65536 /\
    currentIndex s' = 0 /\ slideshowActive s' = true.
Proof.
  intros Hok Hm. unfold handleFileUpload.
  rewrite stopSlideshow_run by exact Hm. simpl.
  rewrite countImages_eq by (assumption || lia). simpl.
  destruct (music_exists env).
  - match goal with |- context [playWAVTask env ?x] =>
      destruct (playWAVTask_run env x Hok) as (s' & Hrun & Ha & _ & Hi & Hc & _) end.
    + exact Hm.
    + exists s'. split; [exact Hrun|]. simpl in *. auto.
  - rewrite restartSlideshow_run by (assumption || exact Hm).
    eexists. split; [reflexivity|].
    match goal with |- context [after_loadImage env ?i ?x] =>
      pose proof (after_loadImage_frame env i x) as (H1 & H2 & _ & _ & _ & H6 & _) end.
    simpl in *. auto.
Qed.

(** C7, as stated, fails: a file named "ABCJPG" has no ".jpg" extension, and
    the rebuild counts it. *)
Lemma handleFileUpload_counts_dotless_name :
  described_names (dir dotless) = [] /\
  exists s', handleFileUpload dotless three_counted = Ok s' /\ fileCount s' = 1.
Proof.
  split; [reflexivity|].
  eexists. split; [vm_compute; reflexivity|]. reflexivity.
Qed.

(** C7 (amended): on a listing in which no directory passes the test, the
    rebuild leaves in [fileCount] the number (as a [uint16_t]) of entries
    whose last three characters are "jpg" in any letter case, with or
    without a dot before them; these are the entries [loadImage] can show. *)
Theorem handleFileUpload_fileCount env s :
  names_ok (dir env) -> no_jpg_directory (dir env) -> xSpiMutex s = false ->
  exists s', handleFileUpload env s = Ok s' /\
    fileCount s' = Z.of_nat (List.length (eligible_names (dir env))) mod 65536 /\
    eligible_names (dir env) =
      List.map getName
        (List.filter (fun entry => negb (isDirectory entry) && lastThreeAreJpg (getName entry))
                     (dir env)).
Proof.
  intros Hok Hnd Hm.
  destruct (handleFileUpload_run env s Hok Hm) as (s' & Hrun & Hc & _).
  exists s'. split; [exact Hrun|]. split; [|reflexivity].
  rewrite Hc, (counted_eligible _ Hnd). unfold eligible_names.
  rewrite List.length_map. reflexivity.
Qed.

Lemma handleFileUpload_fileCount_witness :
  exists s', handleFileUpload three_pictures showing_first = Ok s' /\ fileCount s' = 3.
Proof.
  destruct (handleFileUpload_fileCount three_pictures showing_first)
    as (s' & Hrun & Hc & _).
  - repeat constructor.
  - repeat constructor; discriminate.
  - reflexivity.
  - exists s'. split; [exact Hrun|]. rewrite Hc. reflexivity.
Defined.

(** ** The mutex across operations *)

Lemma decodeJpeg_releases env name s :
  xSpiMutex s = false ->
  exists s', decodeJpeg env name s = Ok s' /\ xSpiMutex s' = false /\
    (occurrences EvGive s' - occurrences EvGive s =
     occurrences EvTake s' - occurrences EvTake s)%nat /\
    occurrences EvTake s' = ((if slideshowActive s then 1 else 0) + occurrences EvTake s)%nat.
Proof.
  intros Hm. destruct (slideshowActive s) eqn:Ha.
  - rewrite decodeJpeg_eq by assumption. eexists. split; [reflexivity|].
    split; [exact Hm|]. unfold occurrences, decode_trace. simpl.
    destruct (jpeg_open env name); simpl; lia.
  - rewrite decodeJpeg_suspended by assumption. exists s.
    split; [reflexivity|]. split; [exact Hm|]. lia.
Qed.

Lemma current_image_stream_abort reads : forall s,
  Forall (fun read => to_uint32 read <> 0) reads ->
  current_image_stream reads s = s.
Proof.
  induction reads as [|read rest IH]; intros s H; [reflexivity|].
  apply Forall_cons in H as [Hr H]. apply Z.eqb_neq in Hr.
  cbn [current_image_stream]. unfold current_image_chunk.
  rewrite Hr. cbv beta iota zeta. rewrite Hr. apply IH. exact H.
Qed.

Lemma current_image_stream_drain data rest : forall s,
  Forall (fun read => to_uint32 read <> 0) data ->
  current_image_stream (data ++ 0 :: rest) s = xSemaphoreGive (emit EvFileClose s).
Proof.
  induction data as [|read data IH]; intros s H.
  - reflexivity.
  - apply Forall_cons in H as [Hr H]. apply Z.eqb_neq in Hr.
    cbn [current_image_stream app]. unfold current_image_chunk.
    rewrite Hr. cbv beta iota zeta. rewrite Hr. apply IH. exact H.
Qed.

(** A request that finds no image, cannot open the file, or is streamed to
    its terminal chunk leaves the mutex free, with as many gives as takes. *)
Lemma serveCurrentFrame_releases env data rest s :
  xSpiMutex s = false ->
  Forall (fun read => to_uint32 read <> 0) data ->
  exists s', serveCurrentFrame env (data ++ 0 :: rest) s = Ok s' /\
    xSpiMutex s' = false /\
    (occurrences EvGive s' - occurrences EvGive s =
     occurrences EvTake s' - occurrences EvTake s)%nat /\
    (occurrences EvTake s' - occurrences EvTake s <= 1)%nat.
Proof.
  intros Hm Hdata. unfold serveCurrentFrame, current_image_handler, xSemaphoreTake.
  destruct (String.eqb (currentImageName s) ""); simpl.
  - eexists. split; [reflexivity|]. simpl. split; [exact Hm|].
    unfold occurrences. simpl. lia.
  - rewrite Hm. simpl. destruct (file_open env (currentImageName s)); simpl.
    + rewrite current_image_stream_drain by exact Hdata.
      eexists. split; [reflexivity|]. simpl. split; [reflexivity|].
      unfold occurrences. simpl. lia.
    + eexists. split; [reflexivity|]. simpl. split; [reflexivity|].
      unfold occurrences. simpl. lia.
Qed.

(** A stream the client leaves before the terminal chunk keeps the mutex. *)
Lemma serveCurrentFrame_abort env reads s :
  xSpiMutex s = false ->
  currentImageName s <> ""%string -> file_open env (currentImageName s) = true ->
  Forall (fun read => to_uint32 read <> 0) reads ->
  exists s', serveCurrentFrame env reads s = Ok s' /\
    xSpiMutex s' = true /\ occurrences EvGive s' = occurrences EvGive s.
Proof.
  intros Hm Hname Hopen Hreads.
  unfold serveCurrentFrame, current_image_handler, xSemaphoreTake.
  destruct (String.eqb_spec (currentImageName s) "") as [E|_]; [contradiction|].
  rewrite Hm. simpl. rewrite Hopen. simpl.
  rewrite current_image_stream_abort by exact Hreads.
  eexists. split; [reflexivity|]. simpl. split; reflexivity.
Qed.

(** C1: the /current_image handler gives the mutex back only in the chunk
    callback that reads 0 bytes. When the client disconnects after two chunks
    the callback is not called again: the mutex stays taken, and the next
    advance of [loop] waits for it in [decodeJpeg]. *)
Theorem current_image_abort_keeps_mutex :
  xSpiMutex showing_first = false /\
  exists s',
    serveCurrentFrame three_pictures [1024; 1024] showing_first = Ok s' /\
    xSpiMutex s' = true /\
    occurrences EvTake s' = 1%nat /\ occurrences EvGive s' = 0%nat /\
    loop three_pictures 20001 20002 s' = Blocked.
Proof.
  split; [reflexivity|].
  eexists. split; [vm_compute; reflexivity|].
  split; [reflexivity|]. split; [reflexivity|]. split; [reflexivity|].
  vm_compute. reflexivity.
Qed.

(** ** The delete handler *)

Section DeleteFilesProps.

Variable sd_remove : string -> bool.

Lemma delete_step_card card b p :
  fst (delete_step sd_remove card b p) = fst (delete_step sd_remove card true p).
Proof.
  unfold delete_step. destruct (isPost p); [|reflexivity].
  case_bool_decide; [|reflexivity]. destruct (sd_remove _); reflexivity.
Qed.

Lemma delete_step_flag card b p :
  snd (delete_step sd_remove card b p) =
  b && (negb (isPost p) ||
        (bool_decide (("/" ++ value p)%string ∈ card) && sd_remove ("/" ++ value p)%string)).
Proof.
  unfold delete_step. destruct (isPost p); simpl.
  - case_bool_decide; simpl.
    + destruct (sd_remove _); simpl; [destruct b; reflexivity | destruct b; reflexivity].
    + destruct b; reflexivity.
  - destruct b; reflexivity.
Qed.

Lemma delete_step_elem card b p path :
  path ∈ fst (delete_step sd_remove card b p) <->
  path ∈ card /\ ~ (isPost p = true /\ path = ("/" ++ value p)%string /\ sd_remove path = true).
Proof.
  unfold delete_step. destruct (isPost p) eqn:Hp; simpl.
  - case_bool_decide as Hin; simpl.
    + destruct (sd_remove ("/" ++ value p)%string) eqn:Hr; simpl.
      * rewrite elem_of_difference, elem_of_singleton. split.
        -- intros [H1 H2]. split; [exact H1|]. intros (_ & He & _). contradiction.
        -- intros [H1 H2]. split; [exact H1|]. intros He. apply H2. subst path. auto.
      * split; [|tauto]. intros H. split; [exact H|].
        intros (_ & He & Hs). subst path. congruence.
    + split; [|tauto]. intros H. split; [exact H|].
      intros (_ & He & _). subst path. contradiction.
  - split; [|tauto]. intros H. split; [exact H|]. intros (Hf & _). discriminate.
Qed.

(** The card after the loop: exactly the named paths that existed and could
    be removed are gone, whatever happened to the other parameters. *)
Lemma delete_loop_elem params : forall card b path,
  path ∈ fst (delete_loop sd_remove params card b) <->
  path ∈ card /\ ~ (In path (post_paths params) /\ sd_remove path = true).
Proof.
  induction params as [|p rest IH]; intros card b path; simpl.
  - unfold post_paths; simpl. tauto.
  - destruct (delete_step sd_remove card b p) as [card1 b1] eqn:Hstep.
    rewrite IH. pose proof (delete_step_elem card b p path) as Hs.
    rewrite Hstep in Hs; simpl in Hs. rewrite Hs. clear IH Hs Hstep.
    unfold post_paths; simpl. destruct (isPost p) eqn:Hp; simpl.
    + fold (post_paths rest). split.
      * intros [[H1 H2] H3]. split; [exact H1|]. intros [[He|Hi] Hr].
        -- apply H2. auto.
        -- apply H3. auto.
      * intros [H1 H2]. split; [split; [exact H1|]|].
        -- intros (_ & He & Hr). apply H2. auto.
        -- intros [Hi Hr]. apply H2. auto.
    + fold (post_paths rest). split.
      * intros [[H1 _] H3]. auto.
      * intros [H1 H2]. split; [split; [exact H1|]|exact H2].
        intros (Hf & _). discriminate.
Qed.

Lemma delete_loop_flag params : forall card b,
  snd (delete_loop sd_remove params card b) =
  b && forallb id (item_outcomes sd_remove params card).
Proof.
  induction params as [|p rest IH]; intros card b; simpl.
  - destruct b; reflexivity.
  - destruct (delete_step sd_remove card b p) as [card1 b1] eqn:Hstep.
    rewrite IH.
    pose proof (delete_step_flag card b p) as Hf. rewrite Hstep in Hf; simpl in Hf.
    pose proof (delete_step_card card b p) as Hc. rewrite Hstep in Hc; simpl in Hc.
    subst b1 card1. destruct (isPost p) eqn:Hp; simpl.
    + unfold id. rewrite !andb_assoc. reflexivity.
    + rewrite andb_true_r. unfold delete_step. rewrite Hp. reflexivity.
Qed.

(** The outcome of the [i]-th named path: it succeeds when the path was on
    the card, [sd.remove] accepts it, and no earlier parameter named it. *)
Lemma item_outcomes_lookup params : forall card i path,
  post_paths params !! i = Some path ->
  item_outcomes sd_remove params card !! i =
  Some (bool_decide (path ∈ card) && sd_remove path &&
        bool_decide (path ∉ take i (post_paths params))).
Proof.
  induction params as [|p rest IH]; intros card i path Hi.
  - destruct i; discriminate Hi.
  - unfold post_paths in Hi |- *. cbn [item_outcomes List.filter] in Hi |- *.
    destruct (isPost p) eqn:Hp; cbn [List.map] in Hi |- *;
      fold (post_paths rest) in Hi |- *; [|apply IH; exact Hi].
    destruct i as [|j].
    + injection Hi as <-. rewrite take_0.
      rewrite (bool_decide_eq_true_2 (_ ∉ [])) by apply not_elem_of_nil.
      rewrite andb_true_r. reflexivity.
    + change ((?x :: ?l) !! S j) with (l !! j) in Hi |- *.
      rewrite (IH _ j path Hi). f_equal.
      change (take (S j) (?x :: ?l)) with (x :: take j l).
      pose proof (delete_step_elem card true p path) as He. rewrite Hp in He.
      destruct (sd_remove path) eqn:Hr; [|rewrite !andb_false_r; reflexivity].
      rewrite !andb_true_r.
      destruct (decide (path = ("/" ++ value p)%string)) as [Heq|Hne].
      * rewrite (bool_decide_eq_false_2 (path ∈ (delete_step sd_remove card true p).1)).
        2:{ rewrite He. intros [_ Hn]. apply Hn. auto. }
        rewrite (bool_decide_eq_false_2 (path ∉ _ :: _)).
        2:{ intros Hn. apply Hn. subst path. left. }
        rewrite andb_false_r. reflexivity.
      * assert (Hiff : path ∈ (delete_step sd_remove card true p).1 <-> path ∈ card).
        { rewrite He. split; [tauto|]. intros H. split; [exact H|]. tauto. }
        rewrite (bool_decide_ext _ _ Hiff). f_equal.
        apply bool_decide_ext. rewrite not_elem_of_cons. tauto.
Qed.

Lemma item_outcomes_length params : forall card,
  List.length (item_outcomes sd_remove params card) = List.length (post_paths params).
Proof.
  unfold post_paths.
  induction params as [|p rest IH]; intros card; simpl; [reflexivity|].
  destruct (isPost p); simpl; rewrite IH; reflexivity.
Qed.

End DeleteFilesProps.

(** C8: the delete handler goes through every POST parameter: each named
    path gets an outcome, which is a failure when the path is not on the card
    (never was, or an earlier parameter removed it) or when [sd.remove]
    fails; a failure does not stop the loop, so every named path that exists
    and can be removed is gone afterwards and nothing else is; the response
    (always status 200) reports success exactly when every outcome is a
    success. *)
Theorem delete_files_batch (sd_remove : string -> bool) (params : list Param)
    (card : gset string) :
  let card' := fst (delete_files_handler sd_remove params card) in
  let response := snd (delete_files_handler sd_remove params card) in
  let outcomes := item_outcomes sd_remove params card in
  List.length outcomes = List.length (post_paths params) /\
  (forall i path, post_paths params !! i = Some path ->
     outcomes !! i =
     Some (bool_decide (path ∈ card) && sd_remove path &&
           bool_decide (path ∉ take i (post_paths params)))) /\
  (forall path,
     path ∈ card' <->
     path ∈ card /\ ~ (In path (post_paths params) /\ sd_remove path = true)) /\
  response = mkResponse 200 (DeleteResultPage (forallb id outcomes)) /\
  (page response = DeleteResultPage true <-> Forall (fun ok => ok = true) outcomes).
Proof.
  cbv zeta. unfold delete_files_handler.
  pose proof (delete_loop_flag sd_remove params card true) as Hflag.
  pose proof (delete_loop_elem sd_remove params card true) as Helem.
  destruct (delete_loop sd_remove params card true) as [card' flag].
  cbn [fst snd] in *. subst flag. rewrite andb_true_l.
  split; [apply item_outcomes_length|].
  split; [intros i path; apply item_outcomes_lookup|].
  split; [exact Helem|]. split; [reflexivity|].
  cbn [page]. rewrite List.Forall_forall. split.
  - intros H ok Hin. injection H as H.
    rewrite List.forallb_forall in H. apply (H ok Hin).
  - intros H. f_equal. apply List.forallb_forall. intros ok Hin. apply (H ok Hin).
Qed.

Lemma delete_files_batch_witness :
  ("/b.jpg"%string ∉ fst (delete_files_handler (fun _ => true) delete_request card_abc)) /\
  snd (delete_files_handler (fun _ => true) delete_request card_abc)
    = mkResponse 200 (DeleteResultPage false).
Proof.
  pose proof (delete_files_batch (fun _ => true) delete_request card_abc)
    as (_ & _ & Hcard & Hresp & _).
  cbv zeta in Hcard, Hresp. split.
  - rewrite Hcard. intros [_ Hn]. apply Hn. split; [|reflexivity].
    right. right. left. reflexivity.
  - rewrite Hresp. vm_compute. reflexivity.
Defined.

(** ** The interval *)

Lemma getParam_none name post params :
  Forall (fun p => paramName p <> name \/ isPost p <> post \/ isFile p = true) params ->
  getParam name post params = None.
Proof.
  unfold getParam. induction 1 as [|p rest Hp _ IH]; [reflexivity|].
  cbn [List.find]. rewrite IH.
  destruct (String.eqb_spec (paramName p) name) as [Hn|Hn]; [|reflexivity].
  destruct (Bool.eqb_spec (isPost p) post) as [Hq|Hq]; [|reflexivity].
  destruct Hp as [Hp|[Hp|Hp]]; [contradiction | contradiction |].
  rewrite Hp. reflexivity.
Qed.

Lemma set_speed_stores_toInt speedValue s :
  set_speed_handler (speed_request speedValue) s =
  (set_X (toInt speedValue) s, mkResponse 200 SpeedUpdatedPage).
Proof. reflexivity. Qed.

(** C9: the /set-speed handler stores [toInt] of the parameter without any
    check: "0" and a non-numeric value store 0, "-5" stores -5. *)
Theorem set_speed_stores_nonpositive :
  X initial = 10 /\
  X (fst (set_speed_handler (speed_request "0") initial)) = 0 /\
  X (fst (set_speed_handler (speed_request "abc") initial)) = 0 /\
  X (fst (set_speed_handler (speed_request "-5") initial)) = -5.
Proof. repeat split; vm_compute; reflexivity. Qed.

(** What [loop] makes of such values: with 0 an advance is due one
    millisecond after the last one; with -5 the bound of the comparison is
    [(uint32_t)(-5000)], about 49.7 days. *)
Lemma nonpositive_interval_effects :
  due 1 (set_X 0 initial) = true /\
  to_uint32 (X (set_X (-5) initial) * 1000) = 4294962296.
Proof. split; vm_compute; reflexivity. Qed.

(** C10: a /set-speed request with no POST parameter named "speed" (no
    parameter at all, or "speed" only in the query string or as a file)
    changes nothing, [X] included, and is answered with the same 200 page. *)
Theorem set_speed_without_param (params : list Param) (s : State) :
  Forall (fun p => paramName p <> "speed"%string \/ isPost p = false \/ isFile p = true)
         params ->
  set_speed_handler params s = (s, mkResponse 200 SpeedUpdatedPage).
Proof.
  intros H. unfold set_speed_handler, hasParam.
  rewrite getParam_none; [reflexivity|].
  eapply Forall_impl; [exact H|].
  intros p [Hp|[Hp|Hp]]; [left; exact Hp | right; left; rewrite Hp; discriminate | auto].
Qed.

Lemma set_speed_without_param_witness :
  set_speed_handler [mkParam "speed" "3" false false; mkParam "pace" "7" true false]
                    three_counted
  = (three_counted, mkResponse 200 SpeedUpdatedPage).
Proof.
  apply set_speed_without_param.
  constructor; [right; left; reflexivity|].
  constructor; [left; discriminate | constructor].
Defined.

(** * Further properties *)

(** ** The slideshow while suspended and across the roll-over of [millis] *)

(** X1: while the slideshow is suspended, a tick of [loop] that is due still
    advances [currentIndex], resets [timer] and clears [buttonPressed]; it
    shows nothing, broadcasts nothing and does not touch the mutex (so it
    cannot block, even while another task holds it). *)
Theorem loop_while_suspended env now now' s :
  slideshowActive s = false -> 0 < fileCount s -> due now s = true ->
  loop env now now' s =
  Ok (set_buttonPressed false
        (set_timer now'
           (set_currentIndex (to_int16 (c_rem (currentIndex s + 1) (fileCount s))) s))).
Proof.
  intros Ha Hpos Hdue. unfold loop. unfold due in Hdue. rewrite Hdue.
  destruct (Z.gtb_spec (fileCount s) 0) as [_|Hle]; [|lia].
  cbv zeta. rewrite loadImage_suspended by exact Ha. reflexivity.
Qed.

Lemma loop_while_suspended_witness :
  exists s0 s1,
    stopSlideshow showing_first = Ok s0 /\
    loop three_pictures 10001 10002 s0 = Ok s1 /\
    currentIndex s1 = 1 /\ timer s1 = 10002 /\
    currentImageName s1 = "a.jpg"%string /\ trace s1 = trace s0.
Proof.
  eexists. eexists. split; [vm_compute; reflexivity|].
  split.
  - apply loop_while_suspended.
    + reflexivity.
    + reflexivity.
    + vm_compute. reflexivity.
  - vm_compute. repeat split; reflexivity.
Defined.

(** X2: the test of [loop] is correct across the roll-over of [millis()]:
    when [d] milliseconds (less than 2^32) have passed since [timer] was
    set, the 32-bit difference is [d] even if the clock has wrapped, so the
    advance is due exactly when [d > X * 1000]. *)
Theorem due_across_rollover d s :
  0 <= timer s < 4294967296 -> 0 <= d < 4294967296 ->
  0 <= X s * 1000 < 4294967296 -> buttonPressed s = false ->
  due (to_uint32 (timer s + d)) s = (d >? X s * 1000).
Proof.
  intros Ht Hd HX Hb. unfold due, to_uint32. rewrite Hb, orb_false_r.
  rewrite Zminus_mod_idemp_l.
  replace (timer s + d - timer s) with d by lia.
  rewrite (Z.mod_small d) by lia.
  rewrite (Z.mod_small (X s * 1000)) by lia. reflexivity.
Qed.

Lemma due_across_rollover_witness :
  due (to_uint32 (timer (set_timer 4294967000 initial) + 10297))
      (set_timer 4294967000 initial) = true /\
  to_uint32 (4294967000 + 10297) = 10001.
Proof.
  split.
  - rewrite (due_across_rollover 10297 (set_timer 4294967000 initial)).
    + reflexivity.
    + split; [discriminate | reflexivity].
    + split; [discriminate | reflexivity].
    + split; [discriminate | reflexivity].
    + reflexivity.
  - vm_compute. reflexivity.
Defined.

(** X3: a button press makes the next tick advance once, whatever the
    timer, and is consumed by it: a further tick at the same millisecond
    changes nothing. *)
Theorem button_press_advances_once env now s :
  names_ok (dir env) -> xSpiMutex s = false ->
  0 < fileCount s <= 32768 -> 0 <= currentIndex s < 32768 ->
  exists s1, loop env now now (buttonInt s) = Ok s1 /\
    currentIndex s1 = (currentIndex s + 1) mod fileCount s /\
    buttonPressed s1 = false /\
    loop env now now s1 = Ok s1.
Proof.
  intros Hok Hm Hn Hi.
  destruct (loop_advance_small env now now (buttonInt s))
    as (s1 & Hrun & Hidx & Htimer & Hb & _); try assumption.
  { unfold due. cbn [buttonPressed buttonInt set_buttonPressed]. apply orb_true_r. }
  exists s1. split; [exact Hrun|]. split; [exact Hidx|]. split; [exact Hb|].
  apply loop_not_due. unfold due. rewrite Hb, Htimer, Z.sub_diag, orb_false_r.
  rewrite Z.gtb_ltb. apply Z.ltb_ge. unfold to_uint32.
  change (0 mod 4294967296) with 0. apply Z.mod_pos_bound. lia.
Qed.

Lemma button_press_advances_once_witness :
  exists s1, loop three_pictures 5 5 (buttonInt showing_first) = Ok s1 /\
    currentIndex s1 = 1 /\ loop three_pictures 5 5 s1 = Ok s1.
Proof.
  destruct (button_press_advances_once three_pictures 5 showing_first)
    as (s1 & Hrun & Hidx & _ & Hagain).
  - repeat constructor.
  - reflexivity.
  - split; [reflexivity | discriminate].
  - split; [discriminate | reflexivity].
  - exists s1. split; [exact Hrun|]. split; [exact Hidx | exact Hagain].
Defined.

(** X4: on a catalog of at most 32768 pictures the advances go round: every
    ordinal is reached within [fileCount] advances, and after exactly
    [fileCount] advances the index is back where it started. *)
Theorem advances_go_round env clock s :
  names_ok (dir env) -> xSpiMutex s = false ->
  0 < fileCount s <= 32768 -> 0 <= currentIndex s < fileCount s ->
  (exists s', advances env clock (Z.to_nat (fileCount s)) s = Ok s' /\
              currentIndex s' = currentIndex s) /\
  (forall j, 0 <= j < fileCount s ->
     exists k s', (k < Z.to_nat (fileCount s))%nat /\
                  advances env clock k s = Ok s' /\ currentIndex s' = j).
Proof.
  intros Hok Hm Hn Hi. split.
  - destruct (advances_small env clock (Z.to_nat (fileCount s)) s Hok Hm Hn Hi)
      as (s' & Hrun & Hidx & _).
    exists s'. split; [exact Hrun|]. rewrite Hidx, Z2Nat.id by lia.
    rewrite <- (Z.mul_1_l (fileCount s)) at 1.
    rewrite Z.mod_add by lia. apply Z.mod_small. exact Hi.
  - intros j Hj. set (k := Z.to_nat ((j - currentIndex s) mod fileCount s)).
    assert (Hk : 0 <= (j - currentIndex s) mod fileCount s < fileCount s)
      by (apply Z.mod_pos_bound; lia).
    destruct (advances_small env clock k s Hok Hm Hn Hi) as (s' & Hrun & Hidx & _).
    exists k, s'. split; [subst k; lia|]. split; [exact Hrun|].
    rewrite Hidx. subst k. rewrite Z2Nat.id by lia.
    rewrite Zplus_mod_idemp_r.
    replace (currentIndex s + (j - currentIndex s)) with j by lia.
    apply Z.mod_small. exact Hj.
Qed.

Lemma advances_go_round_witness :
  exists s', advances three_pictures (fun k => Z.of_nat k) 3 showing_first = Ok s' /\
             currentIndex s' = 0.
Proof.
  destruct (advances_go_round three_pictures (fun k => Z.of_nat k) showing_first)
    as [(s' & Hrun & Hidx) _].
  - repeat constructor.
  - reflexivity.
  - split; [reflexivity | discriminate].
  - split; [discriminate | reflexivity].
  - exists s'. split; [exact Hrun | exact Hidx].
Defined.

(** ** What [loadImage] shows and what it leaves alone *)

Lemma occurrences_new e new s s0 :
  occurrences e (set_trace (new ++ trace s) s0) =
  (List.length (List.filter (fun e' => bool_decide (e' = e)) new) + occurrences e s)%nat.
Proof.
  unfold occurrences. cbn [trace set_trace].
  rewrite List.filter_app, List.length_app. reflexivity.
Qed.



(** X6: an index below [fileCount] but past the last picture [loadImage]
    can show (the count also counts directories) shows nothing: the state is
    unchanged and no "update" is broadcast. *)
Theorem loadImage_past_last_picture env targetIndex s :
  names_ok (dir env) ->
  Z.of_nat (List.length (eligible_names (dir env))) <= targetIndex < fileCount s ->
  targetIndex < 65536 ->
  loadImage env targetIndex s = Ok s.
Proof.
  intros Hok Hi Ht. destruct (slideshowActive s) eqn:Ha.
  - rewrite loadImage_eq by (assumption || lia). unfold resolved_index.
    destruct (Z.geb_spec targetIndex (fileCount s)) as [Hge|_]; [lia|].
    rewrite lookup_ge_None_2; [reflexivity | lia].
  - apply loadImage_suspended. exact Ha.
Qed.

Lemma loadImage_past_last_picture_witness :
  loadImage (mkCard [file "a.jpg"; folder "JPG"] true) 1
            (set_fileCount 2 three_counted)
  = Ok (set_fileCount 2 three_counted).
Proof.
  apply loadImage_past_last_picture.
  - repeat constructor.
  - split; [discriminate | reflexivity].
  - reflexivity.
Defined.

(** X7: [loadImage] takes the mutex at most once, gives it back as many
    times as it takes it, and leaves it free, whether [jpeg.open] succeeds
    or fails and whether an entry is found or not. *)
Theorem loadImage_mutex_balanced env targetIndex s :
  names_ok (dir env) -> xSpiMutex s = false -> 0 <= targetIndex < 65536 ->
  exists s', loadImage env targetIndex s = Ok s' /\
    xSpiMutex s' = false /\
    exists n, (n <= 1)%nat /\
      occurrences EvTake s' = (n + occurrences EvTake s)%nat /\
      occurrences EvGive s' = (n + occurrences EvGive s)%nat.
Proof.
  intros Hok Hm Ht. rewrite loadImage_run by assumption.
  eexists. split; [reflexivity|].
  pose proof (after_loadImage_frame env targetIndex s) as (_ & _ & _ & _ & _ & _ & H7 & _).
  cbv zeta in H7. rewrite H7. split; [exact Hm|].
  unfold after_loadImage.
  destruct (slideshowActive s); [|exists 0%nat; auto].
  destruct (eligible_names (dir env) !! _) as [name|]; [|exists 0%nat; auto].
  exists 1%nat. split; [lia|]. unfold shown.
  change (EvWsTextAll "update" :: decode_trace env name ++ trace s)
    with ((EvWsTextAll "update" :: decode_trace env name) ++ trace s).
  rewrite !occurrences_new. unfold decode_trace.
  destruct (jpeg_open env name); split; reflexivity.
Qed.

Lemma loadImage_mutex_balanced_witness :
  exists s', loadImage three_corrupt 2 three_counted = Ok s' /\ xSpiMutex s' = false.
Proof.
  destruct (loadImage_mutex_balanced three_corrupt 2 three_counted)
    as (s' & Hrun & Hfree & _).
  - repeat constructor.
  - reflexivity.
  - split; [discriminate | reflexivity].
  - exists s'. split; [exact Hrun | exact Hfree].
Defined.

(** X8: once [stopSlideshow] has returned, nothing is decoded or broadcast
    until the slideshow is restarted: [loadImage] and [decodeJpeg] return
    at once, for every card and every index; the decoder has been closed
    under the mutex, which is free again. *)
Theorem stopSlideshow_stops_rendering s :
  xSpiMutex s = false ->
  exists s', stopSlideshow s = Ok s' /\
    slideshowActive s' = false /\ xSpiMutex s' = false /\
    trace s' = [EvGive; EvJpegClose; EvTake] ++ trace s /\
    currentImageName s' = currentImageName s /\
    (forall env targetIndex, loadImage env targetIndex s' = Ok s') /\
    (forall env name, decodeJpeg env name s' = Ok s').
Proof.
  intros Hm. rewrite stopSlideshow_run by exact Hm.
  eexists. split; [reflexivity|]. cbn [slideshowActive xSpiMutex trace currentImageName
    set_trace set_slideshowActive].
  split; [reflexivity|]. split; [exact Hm|]. split; [reflexivity|].
  split; [reflexivity|]. split.
  - intros env targetIndex. apply loadImage_suspended. reflexivity.
  - intros env name. apply decodeJpeg_suspended. reflexivity.
Qed.

Lemma stopSlideshow_stops_rendering_witness :
  exists s', stopSlideshow showing_first = Ok s' /\
             loadImage three_pictures 1 s' = Ok s'.
Proof.
  destruct (stopSlideshow_stops_rendering showing_first)
    as (s' & Hrun & _ & _ & _ & _ & Hload & _).
  - reflexivity.
  - exists s'. split; [exact Hrun | apply Hload].
Defined.

(** ** Mounting *)

(** X9: [checkAndMountSDCard] returns the value it leaves in [sdMounted];
    when the card is already mounted it does not call [sd.begin] again, so a
    repeated call after a success changes nothing; after a failure the flag
    is false and the next call tries [sd.begin] again. *)
Theorem checkAndMountSDCard_flag env s :
  let r := checkAndMountSDCard env s in
  fst r = sdMounted (snd r) /\
  fst r = (sdMounted s || sd_begin env) /\
  (forall env', fst r = true -> checkAndMountSDCard env' (snd r) = (true, snd r)) /\
  (forall env', fst r = false ->
     trace (snd (checkAndMountSDCard env' (snd r)))
       = EvSdFatBegin (sd_begin env') :: trace (snd r)).
Proof.
  cbv zeta. unfold checkAndMountSDCard.
  destruct (sdMounted s) eqn:Hs; cbn [negb].
  - cbn [fst snd orb]. rewrite Hs. split; [reflexivity|]. split; [reflexivity|].
    split; [|discriminate]. intros env' _. reflexivity.
  - destruct (sd_begin env); cbn [negb fst snd orb sdMounted set_sdMounted].
    + split; [reflexivity|]. split; [reflexivity|]. split; [reflexivity|discriminate].
    + split; [reflexivity|]. split; [reflexivity|]. split; [discriminate|].
      intros env' _. destruct (sd_begin env'); reflexivity.
Qed.

(** ** Playback *)

Lemma wav_play_trace n : forall s,
  wav_play n s =
  set_trace (EvWavStop :: EvWavLoop false :: List.repeat (EvWavLoop true) n ++ trace s) s.
Proof.
  induction n as [|k IH]; intros s.
  - reflexivity.
  - cbn [wav_play]. rewrite IH. cbn [trace emit set_trace List.repeat].
    replace (List.repeat (EvWavLoop true) k ++ EvWavLoop true :: trace s)
      with ((EvWavLoop true :: List.repeat (EvWavLoop true) k) ++ trace s).
    + reflexivity.
    + rewrite List.repeat_cons, <- List.app_assoc. reflexivity.
Qed.

Lemma state_eq s1 s2 :
  currentIndex s1 = currentIndex s2 -> fileCount s1 = fileCount s2 ->
  timer s1 = timer s2 -> X s1 = X s2 -> buttonPressed s1 = buttonPressed s2 ->
  sdMounted s1 = sdMounted s2 -> slideshowActive s1 = slideshowActive s2 ->
  currentImageName s1 = currentImageName s2 -> xSpiMutex s1 = xSpiMutex s2 ->
  sdFatUp s1 = sdFatUp s2 -> SDUp s1 = SDUp s2 -> trace s1 = trace s2 ->
  s1 = s2.
Proof. destruct s1, s2. cbn. intros. subst. reflexivity. Qed.

Lemma playWAV_trace env s :
  xSpiMutex s = false ->
  playWAV env s =
  Ok (set_trace (playWAV_events env ++ trace s)
        (set_SDUp (if SD_begin env then negb (wav_begin env) else SDUp s)
           (set_sdFatUp (SD_begin env && wav_begin env && sd_begin env)
              (set_sdMounted (SD_begin env && wav_begin env && sd_begin env) s)))).
Proof.
  intros Hm. unfold playWAV, xSemaphoreTake, playWAV_events. rewrite Hm. simpl.
  destruct (SD_begin env); simpl.
  - destruct (wav_begin env); simpl.
    + rewrite wav_play_trace. simpl. unfold checkAndMountSDCard. simpl.
      destruct (sd_begin env); simpl; f_equal; apply state_eq;
        lazy -[app List.repeat];
        first [ reflexivity | symmetry; exact Hm
              | cbn [app]; rewrite <- List.app_assoc; reflexivity ].
    + f_equal; apply state_eq; lazy; first [reflexivity | symmetry; exact Hm].
  - f_equal; apply state_eq; lazy; first [reflexivity | symmetry; exact Hm].
Qed.

(** X10: when [SD.begin] and [wav->begin] succeed, [playWAV] calls
    [wav->loop()] once more than the number of chunks it delivers and
    [wav->stop()] twice; the mutex is given back before [wav->begin] and
    taken again only after the last [wav->loop()], so it is never held while
    the file is streamed. *)
Theorem playWAV_streams_without_mutex env s :
  xSpiMutex s = false -> SD_begin env = true -> wav_begin env = true ->
  exists s', playWAV env s = Ok s' /\
    trace s' =
      [EvGive; EvSdFatBegin (sd_begin env); EvSDEnd; EvTake;
       EvWavStop; EvWavStop; EvWavLoop false]
      ++ List.repeat (EvWavLoop true) (wav_chunks env)
      ++ [EvWavBegin true; EvGive; EvSDBegin true; EvSdFatEnd; EvTake]
      ++ trace s.
Proof.
  intros Hm Hsd Hwav. rewrite playWAV_trace by exact Hm.
  eexists. split; [reflexivity|]. cbn [trace set_trace].
  unfold playWAV_events. rewrite Hsd, Hwav.
  rewrite <- !List.app_assoc. reflexivity.
Qed.

Lemma playWAV_streams_without_mutex_witness :
  exists s', playWAV three_pictures showing_first = Ok s' /\
    trace s' =
      [EvGive; EvSdFatBegin true; EvSDEnd; EvTake; EvWavStop; EvWavStop;
       EvWavLoop false; EvWavLoop true; EvWavLoop true; EvWavBegin true;
       EvGive; EvSDBegin true; EvSdFatEnd; EvTake].
Proof.
  destruct (playWAV_streams_without_mutex three_pictures showing_first)
    as (s' & Hrun & Htrace).
  - reflexivity.
  - reflexivity.
  - reflexivity.
  - exists s'. split; [exact Hrun | exact Htrace].
Defined.

Lemma filter_repeat_other (e x : Event) n :
  x <> e ->
  List.filter (fun e' => bool_decide (e' = e)) (List.repeat x n) = [].
Proof.
  intros Hne. induction n as [|k IH]; [reflexivity|].
  cbn [List.repeat List.filter]. rewrite bool_decide_eq_false_2 by exact Hne. exact IH.
Qed.

(** X11: in every outcome of [playWAV] (either [begin] failing, the stream
    ending or failing, the remount failing) the mutex is given back as many
    times as it was taken, once or twice, and is free at the end. *)
Theorem playWAV_mutex_balanced env s :
  xSpiMutex s = false ->
  exists s', playWAV env s = Ok s' /\ xSpiMutex s' = false /\
    let n := if SD_begin env && wav_begin env then 2%nat else 1%nat in
    occurrences EvTake s' = (n + occurrences EvTake s)%nat /\
    occurrences EvGive s' = (n + occurrences EvGive s)%nat.
Proof.
  intros Hm. rewrite playWAV_trace by exact Hm.
  eexists. split; [reflexivity|]. split; [exact Hm|]. cbv zeta.
  rewrite !occurrences_new. unfold playWAV_events.
  destruct (SD_begin env); cbn [andb]; [|split; reflexivity].
  destruct (wav_begin env); [|split; reflexivity].
  rewrite !List.filter_app, !List.length_app.
  rewrite !filter_repeat_other by discriminate.
  destruct (sd_begin env); split; reflexivity.
Qed.

Lemma playWAV_mutex_balanced_witness :
  exists s', playWAV unmountable showing_first = Ok s' /\ xSpiMutex s' = false /\
             occurrences EvTake s' = 2%nat /\ occurrences EvGive s' = 2%nat.
Proof.
  destruct (playWAV_mutex_balanced unmountable showing_first)
    as (s' & Hrun & Hfree & Htake & Hgive).
  - reflexivity.
  - exists s'. split; [exact Hrun|]. split; [exact Hfree|].
    split; [exact Htake | exact Hgive].
Defined.

(** X12: when [SD.begin], [wav->begin] and the final [sd.begin] succeed,
    the task ends, for every length of the stream, with the SdFat volume
    mounted, [SD] ended, the mutex free and the slideshow active; the index,
    the count, the timer and the interval are untouched. *)
Theorem playWAVTask_restores_after_playback env s :
  names_ok (dir env) -> xSpiMutex s = false ->
  SD_begin env = true -> wav_begin env = true -> sd_begin env = true ->
  exists s', playWAVTask env s = Ok s' /\
    sdMounted s' = true /\ sdFatUp s' = true /\ SDUp s' = false /\
    slideshowActive s' = true /\ xSpiMutex s' = false /\
    currentIndex s' = currentIndex s /\ fileCount s' = fileCount s /\
    timer s' = timer s /\ X s' = X s.
Proof.
  intros Hok Hm Hsd Hwav Hfat.
  destruct (playWAVTask_run env s Hok Hm)
    as (s' & Hrun & Ha & Hmx & Hi & Hc & Ht & HX & Hmo & Hup & HSD).
  rewrite Hsd, Hwav, Hfat in *. exists s'. auto 12.
Qed.

Lemma playWAVTask_restores_after_playback_witness :
  exists s', playWAVTask three_pictures showing_first = Ok s' /\
             sdMounted s' = true /\ SDUp s' = false /\ slideshowActive s' = true.
Proof.
  destruct (playWAVTask_restores_after_playback three_pictures showing_first)
    as (s' & Hrun & Hm & _ & HSD & Ha & _).
  - repeat constructor.
  - reflexivity.
  - reflexivity.
  - reflexivity.
  - reflexivity.
  - exists s'. auto.
Defined.

Lemma after_loadImage_name env targetIndex s name :
  slideshowActive s = true ->
  eligible_names (dir env) !! Z.to_nat (resolved_index targetIndex s) = Some name ->
  currentImageName (after_loadImage env targetIndex s) = name.
Proof.
  intros Ha Hname. unfold after_loadImage. rewrite Ha, Hname. reflexivity.
Qed.







(** ** Serving the current frame *)

(** X15: a /current_image stream that reaches its terminal chunk leaves
    every global as it was: the file is opened, read, closed once, and the
    mutex taken once and given back once, whatever the number of data
    chunks; what [file->read] would return after the terminal chunk is never
    asked for. *)
Theorem current_image_drained env data rest s :
  xSpiMutex s = false ->
  currentImageName s <> ""%string -> file_open env (currentImageName s) = true ->
  Forall (fun read => to_uint32 read <> 0) data ->
  serveCurrentFrame env (data ++ 0 :: rest) s =
  Ok (set_trace ([EvGive; EvFileClose; EvSend 200;
                  EvFileOpen (currentImageName s) true; EvTake] ++ trace s) s).
Proof.
  intros Hm Hname Hopen Hdata.
  unfold serveCurrentFrame, current_image_handler, xSemaphoreTake.
  destruct (String.eqb_spec (currentImageName s) "") as [E|_]; [contradiction|].
  rewrite Hm. cbn [mbind result_bind mret result_ret xSpiMutex currentImageName
                   emit set_xSpiMutex negb].
  rewrite Hopen. cbn [negb mbind result_bind mret result_ret].
  rewrite current_image_stream_drain by exact Hdata.
  f_equal. apply state_eq; lazy; first [reflexivity | symmetry; exact Hm].
Qed.

Lemma current_image_drained_witness :
  serveCurrentFrame three_pictures ([1024; 1024; 300] ++ 0 :: [77]) showing_first =
  Ok (set_trace ([EvGive; EvFileClose; EvSend 200; EvFileOpen "a.jpg" true; EvTake]
                 ++ trace showing_first) showing_first).
Proof.
  apply (current_image_drained three_pictures [1024; 1024; 300] [77] showing_first).
  - reflexivity.
  - discriminate.
  - reflexivity.
  - repeat constructor; discriminate.
Defined.

(** X16: an error return of [file->read] (a negative [int]) is stored in a
    [size_t]: the callback hands the server a length of 2^32 minus the error
    code and, the length not being 0, neither closes the file nor gives the
    mutex back. *)
Theorem current_image_read_error read s :
  -4294967296 < read < 0 ->
  current_image_chunk read s = (s, read + 4294967296).
Proof.
  intros Hr. unfold current_image_chunk, to_uint32.
  assert (E : read mod 4294967296 = read + 4294967296).
  { rewrite <- (Z.mod_add read 1) by lia. apply Z.mod_small. lia. }
  rewrite E. destruct (Z.eqb_spec (read + 4294967296) 0) as [H0|_]; [lia|].
  reflexivity.
Qed.

Lemma current_image_read_error_witness :
  current_image_chunk (-1) showing_first = (showing_first, 4294967295).
Proof.
  apply (current_image_read_error (-1) showing_first).
  split; reflexivity.
Defined.

(** ** Deleting *)

Section DeleteMore.

Variable sd_remove : string -> bool.

Lemma delete_files_handler_fst params card :
  fst (delete_files_handler sd_remove params card)
  = fst (delete_loop sd_remove params card true).
Proof. unfold delete_files_handler. destruct (delete_loop _ _ _ _). reflexivity. Qed.

Lemma delete_files_handler_snd params card :
  snd (delete_files_handler sd_remove params card)
  = mkResponse 200 (DeleteResultPage (forallb id (item_outcomes sd_remove params card))).
Proof.
  unfold delete_files_handler.
  pose proof (delete_loop_flag sd_remove params card true) as H.
  destruct (delete_loop _ _ _ _). cbn [snd] in *. rewrite H. reflexivity.
Qed.

(** X17: the same delete request sent a second time finds nothing left to
    remove: the card is not changed again, and as soon as the request names
    a file the second answer reports a failure, even when the first one
    reported success. *)
Theorem delete_files_twice params card :
  let first := delete_files_handler sd_remove params card in
  let second := delete_files_handler sd_remove params (fst first) in
  fst second = fst first /\
  (post_paths params <> [] -> snd second = mkResponse 200 (DeleteResultPage false)).
Proof.
  cbv zeta. rewrite !delete_files_handler_fst, delete_files_handler_snd.
  set (card1 := fst (delete_loop sd_remove params card true)).
  assert (Hgone : forall path, In path (post_paths params) -> sd_remove path = true ->
                               path ∉ card1).
  { intros path Hin Hr Hc. apply delete_loop_elem in Hc as [_ Hn]. apply Hn. auto. }
  split.
  - apply set_eq. intros path. rewrite delete_loop_elem. split; [tauto|].
    intros Hc. split; [exact Hc|]. intros [Hin Hr]. exact (Hgone path Hin Hr Hc).
  - intros Hne. do 2 f_equal.
    destruct (post_paths params) as [|path rest] eqn:Hposts; [contradiction|].
    pose proof (item_outcomes_lookup sd_remove params card1 0 path) as H0.
    specialize (H0 ltac:(rewrite Hposts; reflexivity)).
    destruct (item_outcomes sd_remove params card1) as [|ok oks]; [discriminate|].
    injection H0 as ->. cbn [forallb id].
    destruct (sd_remove path) eqn:Hr; [|rewrite andb_false_r; reflexivity].
    rewrite (bool_decide_eq_false_2 (path ∈ card1)); [reflexivity|].
    apply Hgone; [left; reflexivity | exact Hr].
Qed.

(** X18: a request without POST parameters (none at all, or only
    parameters of the query string) removes nothing and is answered with the
    success page. *)
Theorem delete_files_nothing_posted params card :
  Forall (fun p => isPost p = false) params ->
  delete_files_handler sd_remove params card
  = (card, mkResponse 200 (DeleteResultPage true)).
Proof.
  intros H. unfold delete_files_handler.
  assert (E : delete_loop sd_remove params card true = (card, true)).
  { induction H as [|p rest Hp _ IH]; [reflexivity|].
    cbn [delete_loop]. unfold delete_step. rewrite Hp. exact IH. }
  rewrite E. reflexivity.
Qed.

Lemma post_paths_submit_checked names :
  post_paths (submit_checked names) = List.map (fun name => ("/" ++ name)%string) names.
Proof.
  unfold post_paths, submit_checked.
  induction names as [|name rest IH]; [reflexivity|].
  cbn [List.map List.filter isPost value]. f_equal. exact IH.
Qed.

Lemma delete_checked_flag names : forall card,
  NoDup names ->
  (forall name, In name names ->
     ("/" ++ name)%string ∈ card /\ sd_remove ("/" ++ name)%string = true) ->
  snd (delete_loop sd_remove (submit_checked names) card true) = true.
Proof.
  induction names as [|name rest IH]; intros card Hnd Hall; [reflexivity|].
  apply NoDup_cons in Hnd as [Hnotin Hnd].
  destruct (Hall name (or_introl eq_refl)) as [Hin Hr].
  cbn [submit_checked List.map delete_loop]. unfold delete_step.
  cbn [isPost value]. rewrite bool_decide_eq_true_2 by exact Hin. rewrite Hr.
  apply IH; [exact Hnd|]. intros other Hother.
  destruct (Hall other (or_intror Hother)) as [Hin' Hr']. split; [|exact Hr'].
  apply elem_of_difference. split; [exact Hin'|].
  rewrite elem_of_singleton. intros E. injection E as E. cbv [append] in E.
  apply Hnotin. apply list_elem_of_In. rewrite <- E. exact Hother.
Qed.

(** X19: ticking distinct names that all exist on the card and can all be
    removed deletes exactly those files, leaves every other path, and is
    answered with the success page. *)
Theorem delete_checked_succeeds names card :
  NoDup names ->
  (forall name, In name names ->
     ("/" ++ name)%string ∈ card /\ sd_remove ("/" ++ name)%string = true) ->
  let r := delete_files_handler sd_remove (submit_checked names) card in
  snd r = mkResponse 200 (DeleteResultPage true) /\
  forall path, path ∈ fst r <->
               path ∈ card /\ ~ exists name, In name names /\ path = ("/" ++ name)%string.
Proof.
  intros Hnd Hall. cbv zeta. split.
  - unfold delete_files_handler.
    pose proof (delete_checked_flag names card Hnd Hall) as Hflag.
    destruct (delete_loop _ _ _ _). cbn [snd] in *. rewrite Hflag. reflexivity.
  - intros path. rewrite delete_files_handler_fst, delete_loop_elem.
    rewrite post_paths_submit_checked. split.
    + intros [Hc Hn]. split; [exact Hc|]. intros (name & Hin & ->).
      apply Hn. split; [|apply (Hall name Hin)].
      apply List.in_map_iff. exists name. auto.
    + intros [Hc Hn]. split; [exact Hc|]. intros [Hin _].
      apply List.in_map_iff in Hin as (name & <- & Hin). apply Hn. exists name. auto.
Qed.

End DeleteMore.

Lemma delete_files_nothing_posted_witness :
  delete_files_handler (fun _ => true) [mkParam "file" "a.jpg" false false] card_abc
  = (card_abc, mkResponse 200 (DeleteResultPage true)).
Proof.
  apply delete_files_nothing_posted. repeat constructor.
Defined.

Lemma delete_checked_succeeds_witness :
  snd (delete_files_handler (fun _ => true) (submit_checked ["a.jpg"; "c.jpg"]%string)
         card_abc)
  = mkResponse 200 (DeleteResultPage true).
Proof.
  apply (delete_checked_succeeds (fun _ => true) ["a.jpg"; "c.jpg"]%string card_abc).
  - apply NoDup_cons. split; [|apply NoDup_cons; split; [|apply NoDup_nil; exact I]].
    + intros H. apply list_elem_of_In in H. destruct H as [H|[]]. discriminate H.
    + intros H. apply list_elem_of_In in H. destruct H.
  - intros name [<-|[<-|[]]]; split; first [reflexivity | vm_compute; exact I].
Defined.

(** ** The delete page *)

Lemma listed_names_In entries name :
  In name (listed_names entries) <->
  exists entry, In entry entries /\ getName entry = name /\
                strcasecmp_eq name "System Volume Information" = false.
Proof.
  induction entries as [|entry rest IH]; cbn [listed_names].
  - split; [intros [] | intros (e & [] & _)].
  - destruct (strcasecmp_eq (getName entry) "System Volume Information") eqn:Hv.
    + rewrite IH. split.
      * intros (e & Hin & Hn & Hs). exists e. split; [right; exact Hin | auto].
      * intros (e & [->|Hin] & Hn & Hs); [subst name; congruence|]. exists e. auto.
    + cbn [In]. rewrite IH. split.
      * intros [<-|(e & Hin & Hn & Hs)].
        -- exists entry. split; [left; reflexivity | auto].
        -- exists e. split; [right; exact Hin | auto].
      * intros (e & [->|Hin] & Hn & Hs); [left; exact Hn|]. right. exists e. auto.
Qed.

(** X20: the /delete page first makes sure the card is mounted. When it is
    (or [sd.begin] succeeds) the page is sent with status 200 and offers a
    check box for every entry of the listing, directories and files that are
    not pictures included, except entries named "System Volume Information"
    in any letter case; the "No files found." note is added exactly when no
    box is. When the mount fails the answer is status 500 without any box. *)
Theorem delete_page_lists_every_entry env s :
  let form := snd (delete_page_handler env s) in
  let s' := fst (delete_page_handler env s) in
  if sdMounted s || sd_begin env then
    formStatus form = 200 /\ sdMounted s' = true /\
    (forall name, In name (checkboxes form) <->
       exists entry, In entry (dir env) /\ getName entry = name /\
                     strcasecmp_eq name "System Volume Information" = false) /\
    (noFilesNote form = true <-> checkboxes form = [])
  else
    form = mkDeleteForm 500 [] false /\ sdMounted s' = false.
Proof.
  cbv zeta. unfold delete_page_handler, checkAndMountSDCard.
  destruct (sdMounted s) eqn:Hs; cbn [negb orb].
  - cbn [fst snd formStatus checkboxes noFilesNote sdMounted emit].
    split; [reflexivity|]. split; [exact Hs|]. split; [apply listed_names_In|].
    destruct (listed_names (dir env)); cbn [negb]; split; (reflexivity || discriminate).
  - destruct (sd_begin env); cbn [negb fst snd formStatus checkboxes noFilesNote
                                  sdMounted emit set_sdMounted set_sdFatUp].
    + split; [reflexivity|]. split; [reflexivity|]. split; [apply listed_names_In|].
      destruct (listed_names (dir env)); cbn [negb]; split; (reflexivity || discriminate).
    + split; reflexivity.
Qed.

(** ** The interval *)





(** X22: the first POST parameter named "speed" decides: parameters before
    it that are not such a parameter (other names, query-string parameters,
    files) are skipped, and what follows it is ignored. *)
Theorem set_speed_first_parameter_wins before p after s :
  Forall (fun q => paramName q <> "speed"%string \/ isPost q = false \/ isFile q = true)
         before ->
  paramName p = "speed"%string -> isPost p = true -> isFile p = false ->
  set_speed_handler (before ++ p :: after) s
  = (set_X (toInt (value p)) s, mkResponse 200 SpeedUpdatedPage).
Proof.
  intros Hb Hn Hp Hf. unfold set_speed_handler, hasParam.
  assert (E : getParam "speed" true (before ++ p :: after) = Some p).
  { unfold getParam. induction Hb as [|q rest Hq _ IH]; cbn [app List.find].
    - rewrite Hn, Hp, Hf. reflexivity.
    - rewrite IH.
      destruct (String.eqb_spec (paramName q) "speed") as [Hqn|Hqn]; [|reflexivity].
      destruct Hq as [Hq|[Hq|Hq]]; [contradiction|rewrite Hq|rewrite Hq];
        [reflexivity | destruct (isPost q); reflexivity]. }
  rewrite E. reflexivity.
Qed.

Lemma set_speed_first_parameter_wins_witness :
  X (fst (set_speed_handler
            ([mkParam "speed" "1" false false; mkParam "other" "2" true false]
             ++ mkParam "speed" "30" true false :: [mkParam "speed" "60" true false])
            initial)) = 30.
Proof.
  rewrite (set_speed_first_parameter_wins
             [mkParam "speed" "1" false false; mkParam "other" "2" true false]
             (mkParam "speed" "30" true false) [mkParam "speed" "60" true false] initial).
  - reflexivity.
  - constructor; [right; left; reflexivity|].
    constructor; [left; discriminate | constructor].
  - reflexivity.
  - reflexivity.
  - reflexivity.
Defined.

(** [String(X)] followed by [toInt]. *)
Lemma pretty_N_char_digit d :
  (d < 10)%N ->
  isdigit (pretty_N_char d) = true /\ isspace (pretty_N_char d) = false /\
  Z.of_nat (nat_of_ascii (pretty_N_char d)) - 48 = Z.of_N d.
Proof.
  intros Hd.
  assert (d = 0 \/ d = 1 \/ d = 2 \/ d = 3 \/ d = 4 \/ d = 5 \/ d = 6 \/ d = 7
          \/ d = 8 \/ d = 9)%N as H by lia.
  repeat (destruct H as [->|H]; [repeat split; reflexivity|]).
  subst d. repeat split; reflexivity.
Qed.

Lemma digits_value_pretty x : forall s,
  digits_value (pretty_N_go x s) 0 = digits_value s (Z.of_N x).
Proof.
  induction (N.lt_wf_0 x) as [x _ IH]. intros s.
  destruct (N.eq_dec x 0) as [->|Hx].
  - rewrite pretty_N_go_0. reflexivity.
  - rewrite pretty_N_go_step by lia.
    rewrite IH by (apply N.div_lt; lia).
    cbn [digits_value].
    destruct (pretty_N_char_digit (x `mod` 10)%N) as (Hd & _ & Hv).
    { apply N.mod_lt. discriminate. }
    rewrite Hd, Hv. f_equal.
    pose proof (N.div_mod x 10 ltac:(discriminate)) as Hdm.
    apply (f_equal Z.of_N) in Hdm. rewrite N2Z.inj_add, N2Z.inj_mul in Hdm.
    change (Z.of_N 10) with 10 in Hdm. rewrite Hdm. ring.
Qed.

Lemma pretty_N_go_head x : forall s,
  (0 < x)%N -> exists d r, (d < 10)%N /\ pretty_N_go x s = String (pretty_N_char d) r.
Proof.
  induction (N.lt_wf_0 x) as [x _ IH]. intros s Hx.
  rewrite pretty_N_go_step by exact Hx.
  destruct (N.eq_dec (x `div` 10) 0) as [E|E].
  - rewrite E, pretty_N_go_0. exists (x `mod` 10)%N. eexists.
    split; [apply N.mod_lt; discriminate | reflexivity].
  - apply IH; [apply N.div_lt; [exact Hx | reflexivity] | apply N.neq_0_lt_0; exact E].
Qed.

Lemma toInt_digit_head d r :
  (d < 10)%N ->
  toInt (String (pretty_N_char d) r) = saturate_long (digits_value (String (pretty_N_char d) r) 0).
Proof.
  intros Hd.
  assert (d = 0 \/ d = 1 \/ d = 2 \/ d = 3 \/ d = 4 \/ d = 5 \/ d = 6 \/ d = 7
          \/ d = 8 \/ d = 9)%N as H by lia.
  repeat (destruct H as [->|H]; [reflexivity|]). subst d. reflexivity.
Qed.

Lemma toInt_pretty_pos p (s := pretty_N_go (N.pos p) "") :
  toInt s = saturate_long (Z.pos p) /\ toInt ("-" ++ s)%string = saturate_long (Z.neg p).
Proof.
  subst s.
  destruct (pretty_N_go_head (N.pos p) "" eq_refl) as (d & r & Hd & E).
  pose proof (digits_value_pretty (N.pos p) "") as Hv. cbn [digits_value] in Hv.
  split.
  - rewrite E, toInt_digit_head by exact Hd. rewrite <- E, Hv. reflexivity.
  - unfold toInt. cbv [append]. cbn [skip_spaces isspace].
    change (isspace "-") with false. cbv iota. rewrite Hv. reflexivity.
Qed.

Lemma toInt_pretty z : is_int z -> toInt (pretty z) = z.
Proof.
  intros Hz. unfold is_int, LONG_MIN, LONG_MAX in Hz.
  destruct z as [|p|p].
  - reflexivity.
  - change (pretty (Z.pos p)) with (pretty_N_go (N.pos p) "").
    destruct (toInt_pretty_pos p) as [-> _].
    unfold saturate_long, LONG_MIN, LONG_MAX. lia.
  - change (pretty (Z.neg p)) with ("-" +:+ pretty_N_go (N.pos p) "").
    destruct (toInt_pretty_pos p) as [_ H]. 
    change ("-" +:+ pretty_N_go (N.pos p) "") with ("-" ++ pretty_N_go (N.pos p) "")%string.
    rewrite H. unfold saturate_long, LONG_MIN, LONG_MAX. lia.
Qed.

(** X23: the /speed page and /set-speed are a round trip: posting the value
    the form was filled with, [String(X)], stores the same interval again,
    for every [int] value of [X], negative ones included. *)
Theorem speed_form_round_trip s :
  is_int (X s) ->
  set_speed_handler (speed_request (speed_page_value s)) s
  = (s, mkResponse 200 SpeedUpdatedPage).
Proof.
  intros HX. rewrite set_speed_stores_toInt. unfold speed_page_value.
  rewrite toInt_pretty by exact HX. f_equal. destruct s; reflexivity.
Qed.

Lemma speed_form_round_trip_witness :
  speed_page_value (set_X (-5) initial) = "-5"%string /\
  set_speed_handler (speed_request (speed_page_value (set_X (-5) initial)))
                    (set_X (-5) initial)
  = (set_X (-5) initial, mkResponse 200 SpeedUpdatedPage).
Proof.
  split; [reflexivity|].
  apply speed_form_round_trip. split; discriminate.
Defined.

(** ** The end of [setup] *)

Lemma wait_for_ip_zero localIP n : forall calls ip,
  wait_for_ip localIP n calls ip = "0.0.0.0"%string <->
  ip = "0.0.0.0"%string /\
  forall k, (calls < k <= calls + n)%nat -> localIP k = "0.0.0.0"%string.
Proof.
  induction n as [|n IH]; intros calls ip; cbn [wait_for_ip].
  - destruct (String.eqb_spec ip "0.0.0.0") as [E|E].
    + split; [intros _; split; [exact E | intros k Hk; lia] | intros _; exact E].
    + split; [intros H; contradiction | intros [H _]; contradiction].
  - destruct (String.eqb_spec ip "0.0.0.0") as [E|E].
    + rewrite IH. split.
      * intros [H1 H2]. split; [exact E|]. intros k Hk.
        destruct (Nat.eq_dec k (S calls)) as [->|Hne]; [exact H1 | apply H2; lia].
      * intros [_ H]. split; [apply H; lia | intros k Hk; apply H; lia].
    + split; [intros H; contradiction | intros [H _]; contradiction].
Qed.

(** The address [setup] ends up with is "0.0.0.0" exactly when the first
    eleven answers are. *)
Lemma setup_address localIP :
  (if String.eqb (localIP 0%nat) "0.0.0.0"
   then wait_for_ip localIP 10 0 (localIP 0%nat) else localIP 0%nat) = "0.0.0.0"%string
  <-> forall k, (k <= 10)%nat -> localIP k = "0.0.0.0"%string.
Proof.
  destruct (String.eqb_spec (localIP 0%nat) "0.0.0.0") as [E|E].
  - rewrite wait_for_ip_zero. split.
    + intros [_ H] k Hk. destruct k as [|k]; [exact E | apply H; lia].
    + intros H. split; [exact E | intros k Hk; apply H; lia].
  - split; [intros H; contradiction | intros H; apply H; lia].
Qed.

(** X24: when the address is still "0.0.0.0" after the first answer and ten
    retries, [setup] returns without mounting the card, counting or showing
    anything, and without any message; [fileCount] keeping its initial 0,
    every later tick of [loop] does nothing, card or no card. *)
Theorem setup_without_address env localIP s :
  (forall k, (k <= 10)%nat -> localIP k = "0.0.0.0"%string) ->
  setup_end env localIP s = Ok (s, []) /\
  (fileCount s = 0 -> forall env' now now', loop env' now now' s = Ok s).
Proof.
  intros H. split.
  - unfold setup_end. pose proof (proj2 (setup_address localIP) H) as E. cbv zeta.
    rewrite E. reflexivity.
  - intros Hc env' now now'. apply loop_empty. exact Hc.
Qed.

Lemma setup_without_address_witness :
  setup_end three_pictures no_ip initial = Ok (initial, []) /\
  loop three_pictures 99999 99999 initial = Ok initial.
Proof.
  destruct (setup_without_address three_pictures no_ip initial) as [H1 H2].
  - intros k _. reflexivity.
  - split; [exact H1 | apply H2; reflexivity].
Defined.





(** ** The count and the suffix test *)

Lemma filter_counted_split entries :
  List.length (List.filter counted entries) =
  (List.length (List.filter eligible entries) +
   List.length (List.filter
                  (fun entry => isDirectory entry && lastThreeAreJpg (getName entry))
                  entries))%nat.
Proof.
  induction entries as [|entry rest IH]; [reflexivity|].
  cbn [List.filter]. unfold counted at 1, eligible at 1.
  destruct (isDirectory entry), (lastThreeAreJpg (getName entry));
    cbn [negb andb List.length]; lia.
Qed.

(** X27: the counting loop has no [isDirectory] test: the count it leaves is
    the number of pictures [loadImage] can show plus the number of
    directories whose name passes the suffix test, so with such a directory
    the last indices of the slideshow have no picture. *)
Theorem countImages_counts_directories entries :
  names_ok entries -> count_entries counted entries < 65536 ->
  countImages entries 0 =
  Ok (Z.of_nat (List.length (eligible_names entries)) +
      count_entries (fun entry => isDirectory entry && lastThreeAreJpg (getName entry))
                    entries).
Proof.
  intros Hok Hlt. rewrite countImages_eq by (assumption || lia).
  unfold count_entries in *. rewrite Z.add_0_l, Z.mod_small by lia.
  rewrite filter_counted_split. unfold eligible_names.
  rewrite List.length_map. f_equal. lia.
Qed.

Lemma countImages_counts_directories_witness :
  countImages [file "a.jpg"; folder "JPG"; folder "old"; file "b.txt"] 0 = Ok (1 + 1).
Proof.
  apply (countImages_counts_directories
           [file "a.jpg"; folder "JPG"; folder "old"; file "b.txt"]).
  - repeat constructor.
  - reflexivity.
Defined.

Lemma substring_tail name :
  (4 <= String.length name)%nat ->
  exists c rest,
    substring (String.length name - 4) 4 name = String c rest /\
    substring (String.length name - 3) 3 name = rest.
Proof.
  induction name as [|a s IH]; cbn [String.length]; intros Hlen; [lia|].
  destruct (Nat.eq_dec (String.length s) 3) as [E|E].
  - rewrite E. cbn [Nat.sub substring]. eexists. eexists. split; reflexivity.
  - replace (S (String.length s) - 4)%nat with (S (String.length s - 4)) by lia.
    replace (S (String.length s) - 3)%nat with (S (String.length s - 3)) by lia.
    cbn [substring]. apply IH. lia.
Qed.

(** X28: every name that ends in ".jpg", in any mix of upper and lower
    case, passes the suffix test of the sketch (which looks only at the last
    three characters), and is long enough for the test to be defined. *)
Theorem dot_jpg_is_accepted name :
  endsWithDotJpg name = true -> hasJpgSuffix name = Ok true.
Proof.
  unfold endsWithDotJpg. intros H. apply andb_prop in H as [Hlen Hcmp].
  apply Nat.leb_le in Hlen. rewrite hasJpgSuffix_ok by lia. f_equal.
  unfold lastThreeAreJpg.
  destruct (substring_tail name Hlen) as (c & rest & E4 & E3).
  rewrite E4 in Hcmp. rewrite E3. cbn [strcasecmp_eq] in Hcmp.
  apply andb_prop in Hcmp as [_ Hrest].
  destruct rest as [|x [|y [|z [|w r]]]]; cbn [strcasecmp_eq] in Hrest |- *;
    try discriminate Hrest; try (rewrite !andb_false_r in Hrest; discriminate Hrest).
  exact Hrest.
Qed.

Lemma dot_jpg_is_accepted_witness : hasJpgSuffix "Holiday.JpG" = Ok true.
Proof. apply dot_jpg_is_accepted. reflexivity. Defined.
